(** * Voice-turn orchestration of [main.py]: session store, text truncation,
      and the transcribe / generate / synthesize pipeline.

    The development is a shallow embedding of the Python source:
    - Python [str] is a sequence of Unicode code points ([pystr]);
    - Python [int] is [Z]; [len], [rfind] and slicing are written out;
    - [chat_sessions] (a [defaultdict(list)]) is a [gmap] from session ids
      to message lists, with the insert-on-read behaviour of
      [defaultdict.__getitem__] made explicit;
    - the endpoint body is a computation in a small state-and-exception
      monad whose state holds the store and the local variables that the
      [except] handler reads. *)

From Stdlib Require Import ZArith String Ascii DecimalString.
From stdpp Require Import gmap list.

(** ** Python strings *)

Module Py.

(** A Python [str]: one [N] per code point, so that [len] and indices count
    characters as Python does. *)
Abbreviation pystr := (list N).

(** ASCII literals of the source. *)
Fixpoint py (s : string) : pystr :=
  match s with
  | EmptyString => []
  | String a s' => N_of_ascii a :: py s'
  end.

Definition len {A} (s : list A) : Z := Z.of_nat (length s).

(** [s[:k]]: a negative bound counts from the end. *)
Definition slice_to {A} (k : Z) (s : list A) : list A :=
  if (k <? 0)%Z then take (length s - Z.to_nat (- k)) s
  else take (Z.to_nat k) s.

(** [l[-n:]] for [n > 0]: the last [n] elements, the whole list when it is
    shorter. *)
Definition last_n {A} (n : nat) (l : list A) : list A :=
  drop (length l - n) l.

(** [s.rfind(c)] for a one-character [c]: the highest index holding [c],
    [-1] when there is none. *)
Fixpoint rfind (c : N) (s : pystr) : Z :=
  match s with
  | [] => (-1)%Z
  | x :: s' =>
      let r := rfind c s' in
      if (0 <=? r)%Z then (r + 1)%Z
      else if N.eqb x c then 0%Z else (-1)%Z
  end.

(** [s.startswith(p)] *)
Fixpoint startswith (p s : pystr) : bool :=
  match p, s with
  | [], _ => true
  | _ :: _, [] => false
  | a :: p', b :: s' => N.eqb a b && startswith p' s'
  end.

(** [p in s] for strings: substring test. *)
Fixpoint contains (p s : pystr) : bool :=
  startswith p s ||
  match s with
  | [] => false
  | _ :: s' => contains p s'
  end.

(** [ch.isspace()], the characters removed by [str.strip()]. *)
Definition isspace (c : N) : bool :=
  ((9 <=? c) && (c <=? 13) || (28 <=? c) && (c <=? 32)
   || (c =? 133) || (c =? 160) || (c =? 5760)
   || (8192 <=? c) && (c <=? 8202)
   || (c =? 8232) || (c =? 8233) || (c =? 8239) || (c =? 8287)
   || (c =? 12288))%N.

Fixpoint lstrip (s : pystr) : pystr :=
  match s with
  | [] => []
  | c :: s' => if isspace c then lstrip s' else s
  end.

Definition strip (s : pystr) : pystr := reverse (lstrip (reverse (lstrip s))).

(** Truth value of an [Optional[str]]: [None] and the empty string are
    false. *)
Definition truthy (o : option pystr) : bool :=
  match o with
  | Some (_ :: _) => true
  | _ => false
  end.

(** [str(n)] for a non-negative [int]. *)
Definition str_of_nat (n : nat) : pystr :=
  py (NilZero.string_of_uint (Nat.to_uint n)).

Definition dot : N := 46.
Definition bang : N := 33.
Definition qmark : N := 63.
Definition space : N := 32.
Definition newline : N := 10.
Definition ellipsis : pystr := py "...".

End Py.
Import Py.

(** ** Text truncation before speech synthesis *)

Module Truncate.
Local Open Scope Z_scope.

(** [i > n * 0.k] for an [int] [i], an [int] [n >= 0] and the float literal
    [0.k].  The doubles nearest to 0.8 and 0.9 lie above 4/5 and 9/10 by less
    than 1e-16, so for every [n] below 2^50 the float product lies in
    [[k*n/10, floor(k*n/10) + 1)] and the comparison with an integer is the
    exact one; for [n = 3000] the products are the doubles 2400.0 and
    2700.0. *)
Definition gt_tenths (i n k : Z) : bool := k * n <? 10 * i.

(** STEP 4 of [chat_with_history] (lines 899-916), [MAX_MURF_CHARS] kept as
    a parameter. *)
Definition prepare_tts_text (MAX_MURF_CHARS : Z) (assistant_message : pystr) : pystr :=
  let tts_text := assistant_message in
  if MAX_MURF_CHARS <? len tts_text then
    let truncated := slice_to MAX_MURF_CHARS tts_text in
    let last_sentence :=
      Z.max (Z.max (rfind dot truncated) (rfind bang truncated))
            (rfind qmark truncated) in
    if gt_tenths last_sentence MAX_MURF_CHARS 8 then
      slice_to (last_sentence + 1) truncated
    else
      let last_space := rfind space truncated in
      (if 0 <? last_space then slice_to last_space truncated else truncated)
        ++ ellipsis
  else tts_text.

(** The truncation block of [query_llm] (lines 699-722). *)
Definition truncate_llm_text (MAX_MURF_CHARS : Z) (llm_text : pystr) : pystr :=
  if MAX_MURF_CHARS <? len llm_text then
    let truncated_text := slice_to MAX_MURF_CHARS llm_text in
    let last_period := rfind dot truncated_text in
    let last_exclamation := rfind bang truncated_text in
    let last_question := rfind qmark truncated_text in
    let last_sentence_end :=
      Z.max (Z.max last_period last_exclamation) last_question in
    if gt_tenths last_sentence_end MAX_MURF_CHARS 8 then
      slice_to (last_sentence_end + 1) truncated_text
    else
      let last_space := rfind space truncated_text in
      if gt_tenths last_space MAX_MURF_CHARS 9 then
        slice_to last_space truncated_text ++ ellipsis
      else
        truncated_text ++ ellipsis
  else llm_text.

(** The constant both call sites use. *)
Definition MAX_MURF_CHARS : Z := 3000.

End Truncate.


(** ** Data model *)

Inductive Role := user | assistant.

(** One entry of a session's history (lines 850-854 and 891-895). *)
Record Message := {
  role : Role;
  content : pystr;
  timestamp : pystr
}.

(** The keys of [FALLBACK_MESSAGES], which are also the values of
    [error_type]. *)
Inductive ErrorType :=
  | stt_error
  | llm_error
  | tts_error
  | connection_error
  | general_error.

Definition FALLBACK_MESSAGES (k : ErrorType) : pystr :=
  match k with
  | stt_error => py "I'm having trouble hearing you right now. Please check your microphone and try again."
  | llm_error => py "I'm having trouble thinking right now. My AI brain needs a moment to reconnect."
  | tts_error => py "I'm having trouble speaking right now, but I can still understand you."
  | connection_error => py "I'm having trouble connecting to my services right now. Please try again in a moment."
  | general_error => py "Something went wrong on my end. Let me try to help you differently."
  end.

Definition MAX_HISTORY_MESSAGES : nat := 20.

(** [chat_sessions]: session id to message list. *)
Abbreviation Store := (gmap pystr (list Message)).

Module ChatResponse.
Record t := {
  success : bool;
  message : pystr;
  audio_url : option pystr;
  transcript : option pystr;
  llm_response : option pystr;
  session_id : pystr;
  message_count : nat;
  error_type : option ErrorType;
  fallback_used : bool
}.
End ChatResponse.

(** The dictionary returned by [get_chat_history]. *)
Module HistoryResponse.
Record t := {
  session_id : pystr;
  message_count : nat;
  messages : list Message;
  max_history : nat
}.
End HistoryResponse.

(** The dictionary returned by [clear_chat_history]. *)
Module ClearResponse.
Record t := {
  success : bool;
  message : pystr;
  session_id : pystr
}.
End ClearResponse.

(** The [UploadFile] of a request. *)
Record UploadFile := {
  filename : option pystr;
  content_type : option pystr;
  audio_bytes : list Byte.byte
}.

(** ** The external services *)

(** What [aai_transcriber.transcribe] does on one call. *)
Inductive AaiOutcome :=
  | AaiRaises (e : pystr)          (* an exception, with its [str(e)] *)
  | AaiStatusError (error : pystr) (* status is error; [str(transcript.error)] *)
  | AaiText (text : option pystr). (* [transcript.text] *)

(** What [gemini_client.generate_content] does on one call. *)
Inductive GeminiOutcome :=
  | GeminiRaises (e : pystr)
  | GeminiText (text : option pystr).

(** What [murf_client.text_to_speech.generate] does on one call. *)
Inductive MurfOutcome :=
  | MurfRaises (e : pystr)
  | MurfAudioUrl (url : option pystr) (* the response has [audio_url] *)
  | MurfAudioFile (file : pystr)      (* only [audio_file]; its [str] *)
  | MurfOther (repr : pystr).         (* neither; [str(response)] *)

(** Places of [chat_with_history] where code outside the adapters' own
    [try] blocks runs (logging, reading the upload, the clock, building the
    response), each between the same two accesses to the store. *)
Inductive ProgramPoint :=
  | at_entry             (* 807-809, before the store is touched *)
  | at_filename          (* 811, before the content type is checked *)
  | at_read              (* 822-823, after it *)
  | at_stt_fallback      (* 828-845, the early return *)
  | before_user_append   (* 847-853 *)
  | building_context     (* 857-877, the user message is stored *)
  | before_assistant_append (* 882-894 *)
  | before_synthesize    (* 898-927, the assistant message is stored *)
  | after_synthesize     (* 932-941 *)
  | finalizing.          (* 946-988, after the trim *)

#[global] Instance ProgramPoint_eq_dec : EqDecision ProgramPoint.
Proof. solve_decision. Defined.

(** Everything the endpoint consults outside its own code. A client that
    is [None] is an unconfigured service.  [fault p = Some e] makes the code
    at point [p] raise an exception whose text is [e]. *)
Record World := {
  aai_transcriber : option (list Byte.byte → AaiOutcome);
  gemini_client : option (pystr → GeminiOutcome);
  murf_client : option (pystr → pystr → pystr → MurfOutcome);
  now_isoformat : Role → pystr;   (* [datetime.now().isoformat()] when the message of that role is built *)
  str_lower : pystr → pystr;      (* [str.lower], Unicode case mapping *)
  fault : ProgramPoint → option pystr
}.

(** ** Adapters (lines 45-144) *)

Definition get_error_type (w : World) (exception : pystr) : ErrorType :=
  let error_str := str_lower w exception in
  let has k := contains k error_str in
  if has (py "assemblyai") || has (py "transcription") || has (py "speech") then stt_error
  else if has (py "gemini") || has (py "llm") || has (py "generate_content") then llm_error
  else if has (py "murf") || has (py "tts") || has (py "text_to_speech") then tts_error
  else if has (py "connection") || has (py "network") || has (py "timeout") then connection_error
  else general_error.

Definition generate_fallback_tts (w : World) (message voice style : pystr)
  : option pystr :=
  match murf_client w with
  | None => None
  | Some generate =>
      match generate message voice style with
      | MurfAudioUrl url => url
      | MurfAudioFile file => Some file
      | MurfOther repr => Some repr
      | MurfRaises _ => None
      end
  end.

Definition safe_transcribe_audio (w : World) (audio_data : list Byte.byte)
  : option pystr * option pystr :=
  match aai_transcriber w with
  | None => (None, Some (py "Speech-to-text service is not available"))
  | Some transcribe =>
      match transcribe audio_data with
      | AaiStatusError error =>
          (None, Some (py "Transcription failed: " ++ error))
      | AaiText text =>
          match text with
          | None => (None, Some (py "No speech detected in the audio"))
          | Some text =>
              if bool_decide (text = []) || (len (strip text) =? 0)%Z
              then (None, Some (py "No speech detected in the audio"))
              else (Some (strip text), None)
          end
      | AaiRaises e => (None, Some (py "Transcription error: " ++ e))
      end
  end.

Definition safe_generate_llm_response (w : World) (prompt : pystr)
  : option pystr * option pystr :=
  match gemini_client w with
  | None => (None, Some (py "AI language model is not available"))
  | Some generate_content =>
      match generate_content prompt with
      | GeminiText text =>
          if truthy text
          then (strip <$> text, None)
          else (None, Some (py "AI did not generate a response"))
      | GeminiRaises e => (None, Some (py "AI response error: " ++ e))
      end
  end.

Definition safe_generate_tts (w : World) (text voice style : pystr)
  : option pystr * option pystr :=
  match murf_client w with
  | None => (None, Some (py "Text-to-speech service is not available"))
  | Some generate =>
      match generate text voice style with
      | MurfAudioUrl url => (url, None)
      | MurfAudioFile file => (Some file, None)
      | MurfOther repr => (Some repr, None)
      | MurfRaises e => (None, Some (py "Text-to-speech error: " ++ e))
      end
  end.

(** ** Session store *)

Module SessionStore.

(** [chat_sessions.get(session_id, [])]: a plain read. *)
Definition get (chat_sessions : Store) (session_id : pystr) : list Message :=
  default [] (chat_sessions !! session_id).

(** [chat_sessions[session_id]] on the [defaultdict]: a missing key is
    inserted with the empty list before the list is returned. *)
Definition getitem (chat_sessions : Store) (session_id : pystr)
  : list Message * Store :=
  match chat_sessions !! session_id with
  | Some l => (l, chat_sessions)
  | None => ([], <[session_id := []]> chat_sessions)
  end.

(** [chat_sessions[session_id].append(m)] *)
Definition append (chat_sessions : Store) (session_id : pystr) (m : Message)
  : Store :=
  let '(l, chat_sessions) := getitem chat_sessions session_id in
  <[session_id := l ++ [m]]> chat_sessions.

(** Lines 944-945: the clean-up of STEP 6. *)
Definition trim (chat_sessions : Store) (session_id : pystr) : Store :=
  let '(l, chat_sessions) := getitem chat_sessions session_id in
  if MAX_HISTORY_MESSAGES * 2 <? length l then
    let '(l, chat_sessions) := getitem chat_sessions session_id in
    <[session_id := last_n MAX_HISTORY_MESSAGES l]> chat_sessions
  else chat_sessions.

End SessionStore.

(** ** The endpoint monad: store, handler-visible locals, exceptions *)

Inductive Exn :=
  | HTTPException (status_code : nat) (detail : pystr)
  | Exception (text : pystr).  (* any other [Exception], with its [str(e)] *)

Inductive Outcome (A : Type) :=
  | Return (a : A)
  | Raise (e : Exn).
Arguments Return {A} a.
Arguments Raise {A} e.

(** [user_message] is the one local of [chat_with_history] that the
    [except] handler reads after the body has assigned it. *)
Record St := {
  chat_sessions : Store;
  user_message : option pystr
}.

Definition M (A : Type) : Type := St → Outcome A * St.

#[global] Instance M_ret : MRet M := λ A a s, (Return a, s).
#[global] Instance M_bind : MBind M := λ A B f m s,
  match m s with
  | (Return a, s') => f a s'
  | (Raise e, s') => (Raise e, s')
  end.

Definition raise {A} (e : Exn) : M A := λ s, (Raise e, s).

Definition getitem (session_id : pystr) : M (list Message) := λ s,
  let '(l, cs) := SessionStore.getitem (chat_sessions s) session_id in
  (Return l, {| chat_sessions := cs; user_message := user_message s |}).

Definition append (session_id : pystr) (m : Message) : M unit := λ s,
  (Return (),
   {| chat_sessions := SessionStore.append (chat_sessions s) session_id m;
      user_message := user_message s |}).

Definition trim (session_id : pystr) : M unit := λ s,
  (Return (),
   {| chat_sessions := SessionStore.trim (chat_sessions s) session_id;
      user_message := user_message s |}).

Definition set_user_message (t : option pystr) : M unit := λ s,
  (Return (), {| chat_sessions := chat_sessions s; user_message := t |}).

(** The code at point [p] runs: it raises when the world says so. *)
Definition at_point (w : World) (p : ProgramPoint) : M unit :=
  match fault w p with
  | Some e => raise (Exception e)
  | None => mret ()
  end.

(** Subscripting [None] (as in [user_message[:100]]) is a [TypeError]. *)
Definition subscriptable (o : option pystr) : M pystr :=
  match o with
  | Some t => mret t
  | None => raise (Exception (py "'NoneType' object is not subscriptable"))
  end.

(** ** [chat_with_history] (lines 778-1014) *)

(** STEP 2: the prompt built from the recent messages (lines 863-871). *)
Definition role_label (msg : Message) : pystr :=
  match role msg with
  | user => py "User"
  | assistant => py "Assistant"
  end.

Definition build_prompt (recent_messages : list Message) : pystr :=
  let conversation_prompt :=
    foldl (λ acc msg,
             acc ++ role_label msg ++ py ": " ++ content msg
                 ++ [newline; newline])
          (py "You are a helpful AI assistant. Here is our conversation so far:"
             ++ [newline; newline])
          recent_messages in
  if 1 <? length recent_messages then
    conversation_prompt
      ++ py "Please continue our conversation naturally, remembering what we discussed earlier."
      ++ [newline]
  else conversation_prompt.

(** Lines 952-968: the three status parts joined by [" | "]. *)
Definition build_status (transcript_error llm_error_text tts_error_text : option pystr)
  : pystr :=
  let recognised :=
    if truthy transcript_error
    then [10060%N] ++ py " Speech recognition failed"
    else [9989%N] ++ py " Speech recognized" in
  let generated :=
    if truthy llm_error_text
    then [128260%N] ++ py " Using fallback response"
    else [9989%N] ++ py " AI response generated" in
  let spoken :=
    if truthy tts_error_text
    then [9888%N; 65039%N] ++ py " Audio generation failed"
    else [9989%N] ++ py " Audio generated" in
  recognised ++ py " | " ++ generated ++ py " | " ++ spoken.

(** Line 814. *)
Definition valid_content_type (audio_file : UploadFile) : bool :=
  match content_type audio_file with
  | Some (c :: ct) => startswith (py "audio/") (c :: ct)
  | _ => false
  end.

(** The body of the [try] block.  The locals [llm_error] and [tts_error]
    of the source are [llm_error_text] and [tts_error_text] here, the bare
    names being the error classes. *)
Definition chat_body (w : World) (session_id : pystr) (audio_file : UploadFile)
  : M ChatResponse.t :=
  at_point w at_entry;;
  _ ← getitem session_id;
  at_point w at_filename;;
  (if valid_content_type audio_file then mret ()
   else raise (HTTPException 400
                 (py "Invalid file type. Only audio files are allowed.")));;
  at_point w at_read;;
  let audio_data := audio_bytes audio_file in
  let '(transcribed, transcript_error) := safe_transcribe_audio w audio_data in
  set_user_message transcribed;;
  if truthy transcript_error then
    at_point w at_stt_fallback;;
    let error_type := stt_error in
    let fallback_message := FALLBACK_MESSAGES error_type in
    let fallback_audio :=
      generate_fallback_tts w fallback_message (py "en-US-ken") (py "Neutral") in
    l ← getitem session_id;
    mret {| ChatResponse.success := false;
            ChatResponse.message := fallback_message;
            ChatResponse.audio_url := fallback_audio;
            ChatResponse.transcript := None;
            ChatResponse.llm_response := Some fallback_message;
            ChatResponse.session_id := session_id;
            ChatResponse.message_count := length l;
            ChatResponse.error_type := Some error_type;
            ChatResponse.fallback_used := true |}
  else
    user_text ← subscriptable transcribed;
    at_point w before_user_append;;
    append session_id {| role := user; content := user_text;
                         timestamp := now_isoformat w user |};;
    at_point w building_context;;
    l ← getitem session_id;
    let recent_messages := last_n MAX_HISTORY_MESSAGES l in
    let conversation_prompt := build_prompt recent_messages in
    let '(generated, llm_error_text) :=
      safe_generate_llm_response w conversation_prompt in
    let error_type := if truthy llm_error_text then Some llm_error else None in
    let fallback_used := truthy llm_error_text in
    assistant_message ←
      (if truthy llm_error_text then mret (FALLBACK_MESSAGES llm_error)
       else subscriptable generated);
    at_point w before_assistant_append;;
    append session_id {| role := assistant; content := assistant_message;
                         timestamp := now_isoformat w assistant |};;
    at_point w before_synthesize;;
    let tts_text :=
      Truncate.prepare_tts_text Truncate.MAX_MURF_CHARS assistant_message in
    let voice := if fallback_used then py "en-US-ken" else py "en-US-claire" in
    let style := if fallback_used then py "Neutral" else py "Cheerful" in
    let '(audio_url, tts_error_text) := safe_generate_tts w tts_text voice style in
    let error_type :=
      if truthy tts_error_text then
        match error_type with
        | None => Some tts_error
        | Some k => Some k
        end
      else error_type in
    at_point w after_synthesize;;
    trim session_id;;
    at_point w finalizing;;
    let overall_success :=
      negb (truthy transcript_error
            || (truthy llm_error_text && negb fallback_used)) in
    let status_message :=
      build_status transcript_error llm_error_text tts_error_text in
    l ← getitem session_id;
    mret {| ChatResponse.success := overall_success;
            ChatResponse.message := status_message;
            ChatResponse.audio_url := audio_url;
            ChatResponse.transcript := Some user_text;
            ChatResponse.llm_response := Some assistant_message;
            ChatResponse.session_id := session_id;
            ChatResponse.message_count := length l;
            ChatResponse.error_type := error_type;
            ChatResponse.fallback_used := fallback_used |}.

(** The whole endpoint: the body under its two [except] clauses.  An
    [HTTPException] is raised again; any other exception is turned into a
    response by lines 995-1014, which read the store once more. *)
Definition chat_with_history (w : World) (session_id : pystr)
    (audio_file : UploadFile) (sessions : Store)
  : Outcome ChatResponse.t * Store :=
  match chat_body w session_id audio_file
          {| chat_sessions := sessions; user_message := None |} with
  | (Return r, s) => (Return r, chat_sessions s)
  | (Raise (HTTPException code detail), s) =>
      (Raise (HTTPException code detail), chat_sessions s)
  | (Raise (Exception e), s) =>
      let error_type := get_error_type w e in
      let fallback_message := FALLBACK_MESSAGES error_type in
      let fallback_audio :=
        generate_fallback_tts w fallback_message (py "en-US-ken") (py "Neutral") in
      let '(l, sessions') := SessionStore.getitem (chat_sessions s) session_id in
      (Return {| ChatResponse.success := false;
                 ChatResponse.message :=
                   py "Unexpected error occurred: " ++ fallback_message;
                 ChatResponse.audio_url := fallback_audio;
                 ChatResponse.transcript := user_message s;
                 ChatResponse.llm_response := Some fallback_message;
                 ChatResponse.session_id := session_id;
                 ChatResponse.message_count := length l;
                 ChatResponse.error_type := Some error_type;
                 ChatResponse.fallback_used := true |},
       sessions')
  end.

(** ** [get_chat_history] and [clear_chat_history] (lines 1017-1056) *)

Definition get_chat_history (session_id : pystr) (sessions : Store)
  : HistoryResponse.t * Store :=
  let history := SessionStore.get sessions session_id in
  ({| HistoryResponse.session_id := session_id;
      HistoryResponse.message_count := length history;
      HistoryResponse.messages := history;
      HistoryResponse.max_history := MAX_HISTORY_MESSAGES |},
   sessions).

Definition not_found_message : pystr := py "Session not found or already empty".

Definition clear_chat_history (session_id : pystr) (sessions : Store)
  : ClearResponse.t * Store :=
  if bool_decide (is_Some (sessions !! session_id)) then
    let '(l, sessions) := SessionStore.getitem sessions session_id in
    let message_count := length l in
    ({| ClearResponse.success := true;
        ClearResponse.message :=
          py "Cleared " ++ str_of_nat message_count
            ++ py " messages from session " ++ session_id;
        ClearResponse.session_id := session_id |},
     delete session_id sessions)
  else
    ({| ClearResponse.success := true;
        ClearResponse.message := not_found_message;
        ClearResponse.session_id := session_id |},
     sessions).

(** ** [list_sessions] and [health_check] (lines 1059-1114) *)

Module SessionInfo.
Record t := {
  session_id : pystr;
  message_count : nat;
  last_message_time : option pystr;
  first_message_time : option pystr
}.
End SessionInfo.

Module SessionsResponse.
Record t := {
  total_sessions : nat;
  sessions : list SessionInfo.t
}.
End SessionsResponse.

(** The body of the loop of [list_sessions] for one item of
    [chat_sessions.items()]: a session with no message gives no row. *)
Definition session_row (item : pystr * list Message) : option SessionInfo.t :=
  let '(session_id, messages) := item in
  match messages with
  | [] => None
  | _ :: _ =>
      Some {| SessionInfo.session_id := session_id;
              SessionInfo.message_count := length messages;
              SessionInfo.last_message_time := timestamp <$> last messages;
              SessionInfo.first_message_time := timestamp <$> head messages |}
  end.

(** The rows come in the order in which the store enumerates its entries.
    The Python dictionary enumerates in insertion order, which the [gmap]
    does not record; statements about the rows speak of membership and
    counts only. *)
Definition list_sessions (sessions : Store) : SessionsResponse.t * Store :=
  let rows := omap session_row (map_to_list sessions) in
  ({| SessionsResponse.total_sessions := length rows;
      SessionsResponse.sessions := rows |},
   sessions).

Module HealthResponse.
Record t := {
  status : pystr;
  message : pystr;
  api_key_configured : bool;
  sdk_initialized : bool;
  assemblyai_configured : bool;
  assemblyai_initialized : bool;
  gemini_configured : bool;
  gemini_initialized : bool;
  active_sessions : nat;
  total_messages : nat;
  features : list pystr
}.
End HealthResponse.

(** [sum(len(msgs) for msgs in chat_sessions.values())] *)
Definition count_messages (sessions : Store) : nat :=
  map_fold (λ _ msgs acc, length msgs + acc) 0 sessions.

(** Lines 159-185 leave a client [None] exactly when its key is missing
    from the environment, so the [*_configured] and [*_initialized] flags of
    one service are both the presence of its client. *)
Definition health_check (w : World) (sessions : Store)
  : HealthResponse.t * Store :=
  ({| HealthResponse.status := py "healthy";
      HealthResponse.message :=
        py "Conversational AI Assistant with Memory is running!";
      HealthResponse.api_key_configured := bool_decide (is_Some (murf_client w));
      HealthResponse.sdk_initialized := bool_decide (is_Some (murf_client w));
      HealthResponse.assemblyai_configured :=
        bool_decide (is_Some (aai_transcriber w));
      HealthResponse.assemblyai_initialized :=
        bool_decide (is_Some (aai_transcriber w));
      HealthResponse.gemini_configured := bool_decide (is_Some (gemini_client w));
      HealthResponse.gemini_initialized := bool_decide (is_Some (gemini_client w));
      HealthResponse.active_sessions := size sessions;
      HealthResponse.total_messages := count_messages sessions;
      HealthResponse.features :=
        [py "Text-to-Speech generation";
         py "Voice recording (Echo Bot)";
         py "Audio file upload";
         py "Audio transcription";
         py "LLM query with Gemini";
         py "Conversational chat with memory";
         py "Session-based history";
         py "Echo with Murf voice";
         py "In-browser audio player";
         py "Multiple voice options";
         py "Volume and playback controls"] |},
   sessions).

(** ** [upload_audio] (lines 362-413) *)

Module AudioUploadResponse.
Record t := {
  success : bool;
  message : pystr;
  filename : pystr;
  content_type : pystr;
  size : nat
}.
End AudioUploadResponse.

(** What writing the upload to disk does (lines 388-392): an exception,
    or the size [os.path.getsize] then reports. *)
Inductive SaveOutcome :=
  | SaveRaises (e : pystr)
  | Saved (size : nat).

(** The operating system and libraries as [upload_audio] meets them. *)
Record Host := {
  makedirs : option pystr;          (* [os.makedirs]: the text of its exception, if it raises *)
  strftime_now : pystr;             (* [datetime.now().strftime("%Y%m%d_%H%M%S")] *)
  path_join : pystr → pystr → pystr;   (* [os.path.join] *)
  write_file : pystr → list Byte.byte → SaveOutcome;
  upload_log : option pystr;        (* lines 394-397: the text of an exception, if logging raises *)
  str_http : nat → pystr → pystr    (* [str(e)] of an [HTTPException] *)
}.

(** [s.split(c)[-1]] for a one-character [c]: what follows the last [c],
    the whole of [s] without one. *)
Definition split_last (c : N) (s : pystr) : pystr :=
  drop (Z.to_nat (rfind c s + 1)) s.

(** The body of the [try] block; its single [except Exception] clause
    follows in [upload_audio]. *)
Definition upload_body (h : Host) (audio_file : UploadFile)
  : Outcome AudioUploadResponse.t :=
  if negb (valid_content_type audio_file) then
    Raise (HTTPException 400
             (py "Invalid file type. Only audio files are allowed."))
  else
    let uploads_dir := py "uploads" in
    match makedirs h with
    | Some e => Raise (Exception e)
    | None =>
        let timestamp := strftime_now h in
        match filename audio_file with
        | None =>
            Raise (Exception (py "argument of type 'NoneType' is not iterable"))
        | Some name =>
            let file_extension :=
              if contains [dot] name then split_last dot name else py "wav" in
            let unique_filename :=
              py "recording_" ++ timestamp ++ py "." ++ file_extension in
            let file_path := path_join h uploads_dir unique_filename in
            match write_file h file_path (audio_bytes audio_file) with
            | SaveRaises e => Raise (Exception e)
            | Saved file_size =>
                match upload_log h with
                | Some e => Raise (Exception e)
                | None =>
                    Return {| AudioUploadResponse.success := true;
                              AudioUploadResponse.message :=
                                py "Audio file uploaded successfully!";
                              AudioUploadResponse.filename := unique_filename;
                              AudioUploadResponse.content_type :=
                                default [] (content_type audio_file);
                              AudioUploadResponse.size := file_size |}
                end
            end
        end
    end.

(** [HTTPException] is an [Exception], and the endpoint has no clause that
    raises it again: whatever the body raises is wrapped. *)
Definition upload_audio (h : Host) (audio_file : UploadFile)
  : Outcome AudioUploadResponse.t :=
  match upload_body h audio_file with
  | Return r => Return r
  | Raise e =>
      let text :=
        match e with
        | HTTPException code detail => str_http h code detail
        | Exception text => text
        end in
      Raise (HTTPException 500 (py "Failed to upload audio file: " ++ text))
  end.

(** ** Sample worlds and inputs, used to exercise the model *)

Module Samples.

(** [str.lower] on text whose letters are all ASCII. *)
Definition ascii_lower (s : pystr) : pystr :=
  (λ c, if ((65 <=? c) && (c <=? 90))%N then (c + 32)%N else c) <$> s.

Definition stamp (r : Role) : pystr :=
  match r with
  | user => py "2025-08-10T12:00:00.000001"
  | assistant => py "2025-08-10T12:00:01.500000"
  end.

Definition never_raises : ProgramPoint → option pystr := λ _, None.

(** All three services configured and answering. *)
Definition all_up : World := {|
  aai_transcriber := Some (λ _, AaiText (Some (py " Hello ")));
  gemini_client := Some (λ _, GeminiText (Some (py "Hi there!")));
  murf_client := Some (λ _ _ _, MurfAudioUrl (Some (py "a1")));
  now_isoformat := stamp;
  str_lower := ascii_lower;
  fault := never_raises
|}.

(** The language model is not configured. *)
Definition llm_down : World := {|
  aai_transcriber := aai_transcriber all_up;
  gemini_client := None;
  murf_client := murf_client all_up;
  now_isoformat := stamp;
  str_lower := ascii_lower;
  fault := never_raises
|}.

(** The transcriber hears nothing. *)
Definition stt_silent : World := {|
  aai_transcriber := Some (λ _, AaiText (Some (py "   ")));
  gemini_client := gemini_client all_up;
  murf_client := murf_client all_up;
  now_isoformat := stamp;
  str_lower := ascii_lower;
  fault := never_raises
|}.

(** Only speech synthesis is down. *)
Definition tts_down : World := {|
  aai_transcriber := aai_transcriber all_up;
  gemini_client := gemini_client all_up;
  murf_client := None;
  now_isoformat := stamp;
  str_lower := ascii_lower;
  fault := never_raises
|}.

(** The language model and the speech synthesis are both down. *)
Definition llm_tts_down : World := {|
  aai_transcriber := aai_transcriber all_up;
  gemini_client := None;
  murf_client := None;
  now_isoformat := stamp;
  str_lower := ascii_lower;
  fault := never_raises
|}.

(** World [base] with an exception of text [e] raised at point [p]. *)
Definition with_fault (base : World) (p : ProgramPoint) (e : pystr) : World := {|
  aai_transcriber := aai_transcriber base;
  gemini_client := gemini_client base;
  murf_client := murf_client base;
  now_isoformat := now_isoformat base;
  str_lower := str_lower base;
  fault := λ q, if bool_decide (q = p) then Some e else None
|}.

Definition faulty (p : ProgramPoint) (e : pystr) : World :=
  with_fault all_up p e.

Definition wav : UploadFile := {|
  filename := Some (py "turn.wav");
  content_type := Some (py "audio/wav");
  audio_bytes := []
|}.

Definition s1 : pystr := py "s1".

Definition old_message (n : nat) : Message :=
  {| role := if Nat.even n then user else assistant;
     content := str_of_nat n;
     timestamp := py "2025-08-10T11:00:00" |}.

(** A store in which session [s1] already holds [n] messages. *)
Definition with_history (n : nat) : Store :=
  {[ s1 := old_message <$> seq 0 n ]}.

(** Texts longer than the 3000-character budget, made of the letter [a]
    and one marked character. *)

(** A text of 3101 characters whose only terminator sits at index 2401. *)
Definition period_past_80 : pystr :=
  replicate 2401 97%N ++ [dot] ++ replicate 699 97%N.

(** A text of 3101 characters whose only terminator sits at index 2400,
    which is 0.8 x 3000 exactly. *)
Definition period_at_80 : pystr :=
  replicate 2400 97%N ++ [dot] ++ replicate 700 97%N.

(** 3001 characters, no terminator, one space, at index 5. *)
Definition space_early : pystr :=
  replicate 5 97%N ++ [space] ++ replicate 2995 97%N.

(** 3101 characters, no terminator, one space, at index 2700 = 0.9 x 3000. *)
Definition space_at_90 : pystr :=
  replicate 2700 97%N ++ [space] ++ replicate 400 97%N.

(** 3101 characters, no terminator, one space, at index 2701. *)
Definition space_past_90 : pystr :=
  replicate 2701 97%N ++ [space] ++ replicate 399 97%N.

(** 3005 characters, no terminator, one space, at index 2999. *)
Definition space_late : pystr :=
  replicate 2999 97%N ++ [space] ++ replicate 5 97%N.

End Samples.


(** ** Vocabulary of the statements *)

(** No code outside the adapters raises during the turn. *)
Definition no_fault (w : World) : Prop := ∀ p, fault w p = None.

(** Position of a point on the path of a turn; the early return and the
    first append are the two continuations of the transcription. *)
Definition point_index (p : ProgramPoint) : nat :=
  match p with
  | at_entry => 0
  | at_filename => 1
  | at_read => 2
  | at_stt_fallback => 3
  | before_user_append => 3
  | building_context => 4
  | before_assistant_append => 5
  | before_synthesize => 6
  | after_synthesize => 7
  | finalizing => 8
  end.

(** Nothing raises before point [p] is reached. *)
Definition quiet_until (w : World) (p : ProgramPoint) : Prop :=
  ∀ q, point_index q < point_index p → fault w q = None.

(** The two messages a turn stores. *)
Definition user_entry (w : World) (text : pystr) : Message :=
  {| role := user; content := text; timestamp := now_isoformat w user |}.

Definition assistant_entry (w : World) (text : pystr) : Message :=
  {| role := assistant; content := text; timestamp := now_isoformat w assistant |}.

(** What the list of a session becomes in lines 944-945. *)
Definition trim_list (l : list Message) : list Message :=
  if MAX_HISTORY_MESSAGES * 2 <? length l then last_n MAX_HISTORY_MESSAGES l
  else l.

(** The prompt sent to the language model once [text] has been stored. *)
Definition prompt_after (w : World) (sessions : Store) (session_id text : pystr)
  : pystr :=
  build_prompt
    (last_n MAX_HISTORY_MESSAGES
       (SessionStore.get sessions session_id ++ [user_entry w text])).

(** The synthesis request of STEP 5 for a reply, on the normal path
    ([fallback_used = false]) and on the fallback path. *)
Definition synthesis_of (w : World) (fallback_used : bool) (reply : pystr)
  : option pystr * option pystr :=
  safe_generate_tts w
    (Truncate.prepare_tts_text Truncate.MAX_MURF_CHARS reply)
    (if fallback_used then py "en-US-ken" else py "en-US-claire")
    (if fallback_used then py "Neutral" else py "Cheerful").

(** The class of the earliest stage whose adapter reports an error, in the
    order transcribe, generate, synthesize; [None] when all three answer. *)
Definition earliest_failure (w : World) (session_id : pystr)
    (audio_file : UploadFile) (sessions : Store) : option ErrorType :=
  match safe_transcribe_audio w (audio_bytes audio_file) with
  | (_, Some _) => Some stt_error
  | (None, None) => None
  | (Some text, None) =>
      match safe_generate_llm_response w
              (prompt_after w sessions session_id text) with
      | (_, Some _) => Some llm_error
      | (None, None) => None
      | (Some reply, None) =>
          match synthesis_of w false reply with
          | (_, Some _) => Some tts_error
          | (_, None) => None
          end
      end
  end.

(** More sample inputs: an upload that is not audio, and a host on which
    every file operation succeeds. *)
Definition notes_txt : UploadFile := {|
  filename := Some (py "notes.txt");
  content_type := Some (py "text/plain");
  audio_bytes := []
|}.

Definition voice_memo : UploadFile := {|
  filename := Some (py "memo.v2.webm");
  content_type := Some (py "audio/webm");
  audio_bytes := []
|}.

Definition good_host : Host := {|
  makedirs := None;
  strftime_now := py "20250810_120000";
  path_join := λ a b, a ++ py "/" ++ b;
  write_file := λ _ data, Saved (length data);
  upload_log := None;
  str_http := λ code detail, str_of_nat code ++ py ": " ++ detail
|}.

(** Both the transcriber and the language model return three spaces. *)
Definition all_blank : World := {|
  aai_transcriber := Some (λ _, AaiText (Some (py "   ")));
  gemini_client := Some (λ _, GeminiText (Some (py "   ")));
  murf_client := None;
  now_isoformat := Samples.stamp;
  str_lower := Samples.ascii_lower;
  fault := Samples.never_raises
|}.

(** The three pieces of a prompt (lines 863, 867 and 871). *)
Definition prompt_header : pystr :=
  py "You are a helpful AI assistant. Here is our conversation so far:"
    ++ [newline; newline].

Definition prompt_line (msg : Message) : pystr :=
  role_label msg ++ py ": " ++ content msg ++ [newline; newline].

Definition prompt_continuation : pystr :=
  py "Please continue our conversation naturally, remembering what we discussed earlier."
    ++ [newline].

(** What one turn may make of the list of its session: nothing, the user
    message appended, or the user and the assistant message appended, and
    then possibly the trim. *)
Definition turn_step (w : World) (old l : list Message) : Prop :=
  l = old
  ∨ ∃ u, l = old ++ [user_entry w u]
         ∨ ∃ a, l = old ++ [user_entry w u; assistant_entry w a]
                ∨ l = trim_list (old ++ [user_entry w u; assistant_entry w a]).

(** The exception raised by code outside the adapters, if any, during a
    turn on an audio upload.  [turn_path] lists the points the turn passes:
    the early return when the transcriber reports an error, the six later
    points otherwise.  [first_raise] is the text of the first exception
    raised on that path, the one the handler of lines 995-1014 receives. *)
Fixpoint first_fault (w : World) (points : list ProgramPoint) : option pystr :=
  match points with
  | [] => None
  | p :: points =>
      match fault w p with
      | Some e => Some e
      | None => first_fault w points
      end
  end.

Definition turn_path (w : World) (audio_file : UploadFile) : list ProgramPoint :=
  [at_entry; at_filename; at_read]
    ++ (if truthy (safe_transcribe_audio w (audio_bytes audio_file)).2
        then [at_stt_fallback]
        else [before_user_append; building_context; before_assistant_append;
              before_synthesize; after_synthesize; finalizing]).

Definition first_raise (w : World) (audio_file : UploadFile) : option pystr :=
  first_fault w (turn_path w audio_file).

(** Texts on which the truncation is applied twice: one that fits the
    budget and ends with a space, and one cut at a terminator beyond
    0.8 x 3000 although a space follows at index 2999. *)
Definition fits_with_final_space : pystr :=
  replicate 2999 97%N ++ [space].

Definition late_terminator_then_space : pystr :=
  replicate 2500 97%N ++ [dot] ++ replicate 498 97%N ++ [space]
    ++ replicate 5 97%N.

(** A sentence terminator: one of [.], [!], [?]. *)
Definition terminator (c : N) : Prop := c = dot ∨ c = bang ∨ c = qmark.

(** The one situation in which the pre-synthesis truncation cuts at a
    space so late that the result, with its ellipsis, exceeds the budget:
    the text is longer than [max], its window has no terminator beyond
    0.8 x [max], and the rightmost space of the window sits at index
    [max - 2] or [max - 1], not at index 0. *)
Definition late_space_cut (max : Z) (T : pystr) : Prop :=
  (max < len T)%Z
  ∧ (∀ (j : nat) c, (4 * max < 5 * Z.of_nat j)%Z → (Z.of_nat j < max)%Z →
                    T !! j = Some c → ¬ terminator c)
  ∧ ∃ i : nat,
      0 < i ∧ (max - 3 < Z.of_nat i)%Z ∧ (Z.of_nat i < max)%Z
      ∧ T !! i = Some space
      ∧ ∀ j, i < j → (Z.of_nat j < max)%Z → T !! j ≠ Some space.

(** * Properties *)

Import Samples.

(** ** The store *)

Section StoreFacts.
Implicit Types (sessions : Store) (sid k : pystr) (l : list Message).

Lemma getitem_eq sessions sid :
  SessionStore.getitem sessions sid
  = (SessionStore.get sessions sid,
     <[sid := SessionStore.get sessions sid]> sessions).
Proof.
  unfold SessionStore.getitem, SessionStore.get.
  destruct (sessions !! sid) as [l|] eqn:E; simpl; [|done].
  by rewrite insert_id.
Qed.

Lemma get_insert sessions sid l :
  SessionStore.get (<[sid := l]> sessions) sid = l.
Proof. unfold SessionStore.get. by rewrite lookup_insert_eq. Qed.

Lemma get_insert_ne sessions sid k l :
  k ≠ sid →
  SessionStore.get (<[sid := l]> sessions) k = SessionStore.get sessions k.
Proof. intros. unfold SessionStore.get. by rewrite lookup_insert_ne. Qed.

Lemma getitem_insert sessions sid l :
  SessionStore.getitem (<[sid := l]> sessions) sid = (l, <[sid := l]> sessions).
Proof. by rewrite getitem_eq, get_insert, insert_insert_eq. Qed.

Lemma append_insert sessions sid l (m : Message) :
  SessionStore.append (<[sid := l]> sessions) sid m
  = <[sid := l ++ [m]]> sessions.
Proof.
  unfold SessionStore.append. by rewrite getitem_insert, insert_insert_eq.
Qed.

Lemma trim_insert sessions sid l :
  SessionStore.trim (<[sid := l]> sessions) sid
  = <[sid := trim_list l]> sessions.
Proof.
  unfold SessionStore.trim, trim_list. rewrite getitem_insert.
  destruct (_ <? _); [|done]. by rewrite getitem_insert, insert_insert_eq.
Qed.

End StoreFacts.

(** ** The adapters return a value or a non-empty error, never both *)

Lemma py_app_nonempty (a : ascii) (s : string) (e : pystr) :
  py (String a s) ++ e ≠ [].
Proof. done. Qed.

Lemma safe_transcribe_audio_cases w d :
  (∃ t, t ≠ [] ∧ safe_transcribe_audio w d = (Some t, None))
  ∨ (∃ e, e ≠ [] ∧ safe_transcribe_audio w d = (None, Some e)).
Proof.
  unfold safe_transcribe_audio.
  destruct (aai_transcriber w) as [transcribe|]; [|right; eexists; split; [|done]; done].
  destruct (transcribe d) as [e|e|[text|]];
    try (right; eexists; split; [|done]; done).
  destruct (bool_decide _ || _) eqn:E;
    [right; eexists; split; [|done]; done|].
  left. exists (strip text). split; [|done].
  apply orb_false_elim in E as [_ E]. intros Hs. rewrite Hs in E. done.
Qed.

Lemma safe_generate_llm_response_cases w p :
  (∃ t, safe_generate_llm_response w p = (Some t, None))
  ∨ (∃ e, e ≠ [] ∧ safe_generate_llm_response w p = (None, Some e)).
Proof.
  unfold safe_generate_llm_response.
  destruct (gemini_client w) as [g|]; [|right; eexists; split; [|done]; done].
  destruct (g p) as [e|[[|c t]|]]; simpl;
    try (right; eexists; split; [|done]; done).
  left. by eexists.
Qed.

Lemma safe_generate_tts_cases w t v s :
  (∃ url, safe_generate_tts w t v s = (url, None))
  ∨ (∃ e, e ≠ [] ∧ safe_generate_tts w t v s = (None, Some e)).
Proof.
  unfold safe_generate_tts.
  destruct (murf_client w) as [g|]; [|right; eexists; split; [|done]; done].
  destruct (g t v s); try (left; by eexists).
  right; eexists; split; [|done]; done.
Qed.

Lemma truthy_nonempty (e : pystr) : e ≠ [] → truthy (Some e) = true.
Proof. by destruct e. Qed.

(** ** Running the monad *)

Lemma bind_run {A B} (m : M A) (f : A → M B) (s : St) :
  (m ≫= f) s
  = match m s with
    | (Return a, s') => f a s'
    | (Raise e, s') => (Raise e, s')
    end.
Proof. reflexivity. Qed.

Lemma at_point_run w p s :
  at_point w p s
  = match fault w p with
    | Some e => (Raise (Exception e), s)
    | None => (Return (), s)
    end.
Proof. unfold at_point. by destruct (fault w p). Qed.

Lemma at_point_quiet w p : no_fault w → at_point w p = mret ().
Proof. intros Hq. unfold at_point. by rewrite Hq. Qed.

Lemma getitem_first sid sessions um :
  getitem sid {| chat_sessions := sessions; user_message := um |}
  = (Return (SessionStore.get sessions sid),
     {| chat_sessions := <[sid := SessionStore.get sessions sid]> sessions;
        user_message := um |}).
Proof. unfold getitem. simpl. by rewrite getitem_eq. Qed.

Lemma getitem_run sid sessions l um :
  getitem sid {| chat_sessions := <[sid := l]> sessions; user_message := um |}
  = (Return l, {| chat_sessions := <[sid := l]> sessions; user_message := um |}).
Proof. unfold getitem. simpl. by rewrite getitem_insert. Qed.

Lemma append_run sid sessions l m um :
  append sid m {| chat_sessions := <[sid := l]> sessions; user_message := um |}
  = (Return (),
     {| chat_sessions := <[sid := l ++ [m]]> sessions; user_message := um |}).
Proof. unfold append. simpl. by rewrite append_insert. Qed.

Lemma trim_run sid sessions l um :
  trim sid {| chat_sessions := <[sid := l]> sessions; user_message := um |}
  = (Return (),
     {| chat_sessions := <[sid := trim_list l]> sessions; user_message := um |}).
Proof. unfold trim. simpl. by rewrite trim_insert. Qed.

Ltac run :=
  repeat first
    [ rewrite bind_run
    | rewrite getitem_run
    | rewrite getitem_first
    | rewrite append_run
    | rewrite trim_run
    | rewrite at_point_run
    | progress cbn [chat_sessions user_message]
    | rewrite getitem_insert
    | rewrite getitem_eq
    | progress cbv beta iota zeta
    | progress unfold set_user_message, subscriptable, raise, mret, M_ret ].

(** Whatever happens, the turn rewrites the entry of its own session and
    nothing else. *)
Lemma chat_with_history_frame w sid file sessions :
  ∃ l, (chat_with_history w sid file sessions).2 = <[sid := l]> sessions.
Proof.
  unfold chat_with_history, chat_body.
  run. destruct (fault w at_entry); run; [by eexists|].
  destruct (fault w at_filename); run; [by eexists|].
  destruct (valid_content_type file); run; [|by eexists].
  destruct (fault w at_read); run; [by eexists|].
  destruct (safe_transcribe_audio w (audio_bytes file)) as [t te]; run.
  destruct (truthy te); run.
  { destruct (fault w at_stt_fallback); run; by eexists. }
  destruct t as [u|]; run; [|by eexists].
  destruct (fault w before_user_append); run; [by eexists|].
  destruct (fault w building_context); run; [by eexists|].
  destruct (safe_generate_llm_response w _) as [g le]; run.
  destruct (truthy le); run.
  - destruct (fault w before_assistant_append); run; [by eexists|].
    destruct (fault w before_synthesize); run; [by eexists|].
    destruct (safe_generate_tts w _ _ _) as [url tte]; run.
    destruct (fault w after_synthesize); run; [by eexists|].
    destruct (fault w finalizing); run; by eexists.
  - destruct g as [reply|]; run; [|by eexists].
    destruct (fault w before_assistant_append); run; [by eexists|].
    destruct (fault w before_synthesize); run; [by eexists|].
    destruct (safe_generate_tts w _ _ _) as [url tte]; run.
    destruct (fault w after_synthesize); run; [by eexists|].
    destruct (fault w finalizing); run; by eexists.
Qed.

(** With an audio upload the endpoint always answers with a response, and
    a response that is not a success names an error class. *)
Lemma chat_with_history_returns w sid file sessions :
  valid_content_type file = true →
  ∃ r final,
    chat_with_history w sid file sessions = (Return r, final)
    ∧ (ChatResponse.success r = false → is_Some (ChatResponse.error_type r)).
Proof.
  intros Hv. unfold chat_with_history, chat_body.
  run. destruct (fault w at_entry); run; [by do 2 eexists|].
  destruct (fault w at_filename); run; [by do 2 eexists|].
  rewrite Hv. run.
  destruct (fault w at_read); run; [by do 2 eexists|].
  destruct (safe_transcribe_audio w (audio_bytes file)) as [t te]; run.
  destruct (truthy te); run.
  { destruct (fault w at_stt_fallback); run; by do 2 eexists. }
  destruct t as [u|]; run; [|by do 2 eexists].
  destruct (fault w before_user_append); run; [by do 2 eexists|].
  destruct (fault w building_context); run; [by do 2 eexists|].
  destruct (safe_generate_llm_response w _) as [g le]; run.
  destruct (truthy le); run.
  - destruct (fault w before_assistant_append); run; [by do 2 eexists|].
    destruct (fault w before_synthesize); run; [by do 2 eexists|].
    destruct (safe_generate_tts w _ _ _) as [url tte]; run.
    destruct (fault w after_synthesize); run; [by do 2 eexists|].
    destruct (fault w finalizing); run; by do 2 eexists.
  - destruct g as [reply|]; run; [|by do 2 eexists].
    destruct (fault w before_assistant_append); run; [by do 2 eexists|].
    destruct (fault w before_synthesize); run; [by do 2 eexists|].
    destruct (safe_generate_tts w _ _ _) as [url tte]; run.
    destruct (fault w after_synthesize); run; [by do 2 eexists|].
    destruct (fault w finalizing); run; by do 2 eexists.
Qed.

(** ** Complete turns, no code outside the adapters raising *)

Section QuietTurn.
Context (w : World) (sid : pystr) (file : UploadFile) (sessions : Store).
Context (quiet : no_fault w) (valid : valid_content_type file = true).

Let old := SessionStore.get sessions sid.

(** The turn in which the language model fails. *)
Lemma turn_llm_failed u g e url te :
  safe_transcribe_audio w (audio_bytes file) = (Some u, None) →
  safe_generate_llm_response w (prompt_after w sessions sid u) = (g, Some e) →
  e ≠ [] →
  synthesis_of w true (FALLBACK_MESSAGES llm_error) = (url, te) →
  let stored :=
    trim_list (old ++ [user_entry w u;
                       assistant_entry w (FALLBACK_MESSAGES llm_error)]) in
  chat_with_history w sid file sessions
  = (Return {| ChatResponse.success := true;
               ChatResponse.message := build_status None (Some e) te;
               ChatResponse.audio_url := url;
               ChatResponse.transcript := Some u;
               ChatResponse.llm_response := Some (FALLBACK_MESSAGES llm_error);
               ChatResponse.session_id := sid;
               ChatResponse.message_count := length stored;
               ChatResponse.error_type := Some llm_error;
               ChatResponse.fallback_used := true |},
     <[sid := stored]> sessions).
Proof.
  intros Hstt Hllm Hne Htts stored. subst stored old.
  unfold synthesis_of in Htts. unfold prompt_after in Hllm.
  unfold chat_with_history, chat_body.
  rewrite !at_point_quiet by done.
  run. rewrite valid. run. rewrite Hstt. run.
  cbn [truthy]. run.
  change {| role := user; content := u; timestamp := now_isoformat w user |}
    with (user_entry w u).
  rewrite Hllm. run. rewrite (truthy_nonempty _ Hne). run.
  rewrite <- !app_assoc. cbn [app]. rewrite Htts. run.
  destruct (truthy te); reflexivity.
Qed.

(** The turn in which the language model answers [reply]. *)
Lemma turn_llm_ok u reply url te :
  safe_transcribe_audio w (audio_bytes file) = (Some u, None) →
  safe_generate_llm_response w (prompt_after w sessions sid u)
  = (Some reply, None) →
  synthesis_of w false reply = (url, te) →
  let stored :=
    trim_list (old ++ [user_entry w u; assistant_entry w reply]) in
  chat_with_history w sid file sessions
  = (Return {| ChatResponse.success := true;
               ChatResponse.message := build_status None None te;
               ChatResponse.audio_url := url;
               ChatResponse.transcript := Some u;
               ChatResponse.llm_response := Some reply;
               ChatResponse.session_id := sid;
               ChatResponse.message_count := length stored;
               ChatResponse.error_type :=
                 if truthy te then Some tts_error else None;
               ChatResponse.fallback_used := false |},
     <[sid := stored]> sessions).
Proof.
  intros Hstt Hllm Htts stored. subst stored old.
  unfold synthesis_of in Htts. unfold prompt_after in Hllm.
  unfold chat_with_history, chat_body.
  rewrite !at_point_quiet by done.
  run. rewrite valid. run. rewrite Hstt. run.
  cbn [truthy]. run.
  change {| role := user; content := u; timestamp := now_isoformat w user |}
    with (user_entry w u).
  rewrite Hllm. run. cbn [truthy]. run.
  rewrite <- !app_assoc. cbn [app]. rewrite Htts. run.
  destruct (truthy te); reflexivity.
Qed.

(** The turn in which transcription fails. *)
Lemma turn_stt_failed t e :
  safe_transcribe_audio w (audio_bytes file) = (t, Some e) →
  e ≠ [] →
  chat_with_history w sid file sessions
  = (Return {| ChatResponse.success := false;
               ChatResponse.message := FALLBACK_MESSAGES stt_error;
               ChatResponse.audio_url :=
                 generate_fallback_tts w (FALLBACK_MESSAGES stt_error)
                   (py "en-US-ken") (py "Neutral");
               ChatResponse.transcript := None;
               ChatResponse.llm_response := Some (FALLBACK_MESSAGES stt_error);
               ChatResponse.session_id := sid;
               ChatResponse.message_count := length old;
               ChatResponse.error_type := Some stt_error;
               ChatResponse.fallback_used := true |},
     <[sid := old]> sessions).
Proof.
  intros Hstt Hne. subst old.
  unfold chat_with_history, chat_body.
  rewrite !at_point_quiet by done.
  run. rewrite valid. run. rewrite Hstt. run.
  rewrite (truthy_nonempty _ Hne). run. reflexivity.
Qed.

End QuietTurn.

(** ** Turns on a path where nothing raises, and turns that reach the handler *)

Lemma path_quiet_after_transcript w file u :
  safe_transcribe_audio w (audio_bytes file) = (Some u, None) →
  first_raise w file = None →
  ∀ p, p ≠ at_stt_fallback → fault w p = None.
Proof.
  intros Hu. unfold first_raise, turn_path. rewrite Hu.
  cbn [snd truthy app first_fault].
  destruct (fault w at_entry) eqn:E1; [done|].
  destruct (fault w at_filename) eqn:E2; [done|].
  destruct (fault w at_read) eqn:E3; [done|].
  destruct (fault w before_user_append) eqn:E4; [done|].
  destruct (fault w building_context) eqn:E5; [done|].
  destruct (fault w before_assistant_append) eqn:E6; [done|].
  destruct (fault w before_synthesize) eqn:E7; [done|].
  destruct (fault w after_synthesize) eqn:E8; [done|].
  destruct (fault w finalizing) eqn:E9; [done|].
  intros _ p Hp. by destruct p.
Qed.

Lemma path_quiet_on_stt_error w file t e :
  safe_transcribe_audio w (audio_bytes file) = (t, Some e) →
  e ≠ [] →
  first_raise w file = None →
  fault w at_entry = None ∧ fault w at_filename = None
  ∧ fault w at_read = None ∧ fault w at_stt_fallback = None.
Proof.
  intros He Hne. unfold first_raise, turn_path. rewrite He.
  cbn [snd]. rewrite (truthy_nonempty _ Hne). cbn [app first_fault].
  destruct (fault w at_entry); [done|].
  destruct (fault w at_filename); [done|].
  destruct (fault w at_read); [done|].
  by destruct (fault w at_stt_fallback).
Qed.

Section QuietPath.
Context (w : World) (sid : pystr) (file : UploadFile) (sessions : Store).
Context (valid : valid_content_type file = true).
Context (quiet : first_raise w file = None).

Lemma turn_llm_failed_on_path u g e url te :
  safe_transcribe_audio w (audio_bytes file) = (Some u, None) →
  safe_generate_llm_response w (prompt_after w sessions sid u) = (g, Some e) →
  e ≠ [] →
  synthesis_of w true (FALLBACK_MESSAGES llm_error) = (url, te) →
  let stored :=
    trim_list (SessionStore.get sessions sid
                 ++ [user_entry w u;
                     assistant_entry w (FALLBACK_MESSAGES llm_error)]) in
  chat_with_history w sid file sessions
  = (Return {| ChatResponse.success := true;
               ChatResponse.message := build_status None (Some e) te;
               ChatResponse.audio_url := url;
               ChatResponse.transcript := Some u;
               ChatResponse.llm_response := Some (FALLBACK_MESSAGES llm_error);
               ChatResponse.session_id := sid;
               ChatResponse.message_count := length stored;
               ChatResponse.error_type := Some llm_error;
               ChatResponse.fallback_used := true |},
     <[sid := stored]> sessions).
Proof.
  intros Hstt Hllm Hne Htts stored. subst stored.
  pose proof (path_quiet_after_transcript w file u Hstt quiet) as Hm.
  unfold synthesis_of in Htts. unfold prompt_after in Hllm.
  unfold chat_with_history, chat_body.
  run. rewrite (Hm at_entry) by done. run.
  rewrite (Hm at_filename) by done. run. rewrite valid. run.
  rewrite (Hm at_read) by done. run. rewrite Hstt. run. cbn [truthy]. run.
  rewrite (Hm before_user_append) by done. run.
  rewrite (Hm building_context) by done. run.
  change {| role := user; content := u; timestamp := now_isoformat w user |}
    with (user_entry w u).
  rewrite Hllm. run. rewrite (truthy_nonempty _ Hne). run.
  rewrite (Hm before_assistant_append) by done. run.
  rewrite (Hm before_synthesize) by done. run.
  rewrite <- !app_assoc. cbn [app]. rewrite Htts. run.
  rewrite (Hm after_synthesize) by done. run.
  rewrite (Hm finalizing) by done. run.
  destruct (truthy te); reflexivity.
Qed.

Lemma turn_llm_ok_on_path u reply url te :
  safe_transcribe_audio w (audio_bytes file) = (Some u, None) →
  safe_generate_llm_response w (prompt_after w sessions sid u)
  = (Some reply, None) →
  synthesis_of w false reply = (url, te) →
  let stored :=
    trim_list (SessionStore.get sessions sid
                 ++ [user_entry w u; assistant_entry w reply]) in
  chat_with_history w sid file sessions
  = (Return {| ChatResponse.success := true;
               ChatResponse.message := build_status None None te;
               ChatResponse.audio_url := url;
               ChatResponse.transcript := Some u;
               ChatResponse.llm_response := Some reply;
               ChatResponse.session_id := sid;
               ChatResponse.message_count := length stored;
               ChatResponse.error_type :=
                 if truthy te then Some tts_error else None;
               ChatResponse.fallback_used := false |},
     <[sid := stored]> sessions).
Proof.
  intros Hstt Hllm Htts stored. subst stored.
  pose proof (path_quiet_after_transcript w file u Hstt quiet) as Hm.
  unfold synthesis_of in Htts. unfold prompt_after in Hllm.
  unfold chat_with_history, chat_body.
  run. rewrite (Hm at_entry) by done. run.
  rewrite (Hm at_filename) by done. run. rewrite valid. run.
  rewrite (Hm at_read) by done. run. rewrite Hstt. run. cbn [truthy]. run.
  rewrite (Hm before_user_append) by done. run.
  rewrite (Hm building_context) by done. run.
  change {| role := user; content := u; timestamp := now_isoformat w user |}
    with (user_entry w u).
  rewrite Hllm. run. cbn [truthy]. run.
  rewrite (Hm before_assistant_append) by done. run.
  rewrite (Hm before_synthesize) by done. run.
  rewrite <- !app_assoc. cbn [app]. rewrite Htts. run.
  rewrite (Hm after_synthesize) by done. run.
  rewrite (Hm finalizing) by done. run.
  destruct (truthy te); reflexivity.
Qed.

Lemma turn_stt_failed_on_path t e :
  safe_transcribe_audio w (audio_bytes file) = (t, Some e) →
  e ≠ [] →
  chat_with_history w sid file sessions
  = (Return {| ChatResponse.success := false;
               ChatResponse.message := FALLBACK_MESSAGES stt_error;
               ChatResponse.audio_url :=
                 generate_fallback_tts w (FALLBACK_MESSAGES stt_error)
                   (py "en-US-ken") (py "Neutral");
               ChatResponse.transcript := None;
               ChatResponse.llm_response := Some (FALLBACK_MESSAGES stt_error);
               ChatResponse.session_id := sid;
               ChatResponse.message_count :=
                 length (SessionStore.get sessions sid);
               ChatResponse.error_type := Some stt_error;
               ChatResponse.fallback_used := true |},
     <[sid := SessionStore.get sessions sid]> sessions).
Proof.
  intros Hstt Hne.
  destruct (path_quiet_on_stt_error w file t e Hstt Hne quiet)
    as (E1 & E2 & E3 & E4).
  unfold chat_with_history, chat_body.
  run. rewrite E1. run. rewrite E2. run. rewrite valid. run.
  rewrite E3. run. rewrite Hstt. run.
  rewrite (truthy_nonempty _ Hne). run. rewrite E4. run. reflexivity.
Qed.

End QuietPath.

Ltac raised_leaf :=
  intros [= ->]; do 2 eexists; (split; [reflexivity|]); done.

Ltac raised_tail w :=
  (destruct (fault w before_assistant_append); run; [raised_leaf|]);
  (destruct (fault w before_synthesize); run; [raised_leaf|]);
  (destruct (safe_generate_tts w _ _ _) as [url te]; run);
  (destruct (fault w after_synthesize); run; [raised_leaf|]);
  (destruct (fault w finalizing); run; [raised_leaf|]);
  done.

(** When code outside the adapters raises on the path of the turn, the
    handler answers: the response is not a success and its class is read
    off the text of the exception. *)
Lemma turn_raised w sid file sessions x :
  valid_content_type file = true →
  first_raise w file = Some x →
  ∃ r final,
    chat_with_history w sid file sessions = (Return r, final)
    ∧ ChatResponse.success r = false
    ∧ ChatResponse.fallback_used r = true
    ∧ ChatResponse.error_type r = Some (get_error_type w x).
Proof.
  intros Hv. unfold first_raise, turn_path.
  destruct (safe_transcribe_audio_cases w (audio_bytes file))
    as [(u & _ & Hu)|(e & Hne & He)].
  - rewrite Hu. cbn [snd truthy app first_fault].
    destruct (safe_generate_llm_response_cases w (prompt_after w sessions sid u))
      as [(t & Ht)|(e' & Hne & Ht)]; unfold prompt_after, user_entry in Ht;
      unfold chat_with_history, chat_body;
      run; (destruct (fault w at_entry); run; [raised_leaf|]);
      (destruct (fault w at_filename); run; [raised_leaf|]);
      rewrite Hv; run;
      (destruct (fault w at_read); run; [raised_leaf|]);
      rewrite Hu; run; cbn [truthy]; run;
      (destruct (fault w before_user_append); run; [raised_leaf|]);
      (destruct (fault w building_context); run; [raised_leaf|]);
      rewrite Ht; run.
    + cbn [truthy]. run. raised_tail w.
    + rewrite (truthy_nonempty _ Hne). run. raised_tail w.
  - rewrite He. cbn [snd]. rewrite (truthy_nonempty _ Hne).
    cbn [app first_fault].
    unfold chat_with_history, chat_body.
    run. destruct (fault w at_entry); run; [raised_leaf|].
    destruct (fault w at_filename); run; [raised_leaf|].
    rewrite Hv. run.
    destruct (fault w at_read); run; [raised_leaf|].
    rewrite He. run. rewrite (truthy_nonempty _ Hne). run.
    destruct (fault w at_stt_fallback); run; [raised_leaf|].
    done.
Qed.


(** ** The trim *)

Lemma trim_list_short (l : list Message) :
  length l ≤ 2 * MAX_HISTORY_MESSAGES → trim_list l = l.
Proof.
  intros H. unfold trim_list.
  destruct (Nat.ltb_spec (MAX_HISTORY_MESSAGES * 2) (length l)); [lia|done].
Qed.

Lemma trim_list_long (l : list Message) :
  2 * MAX_HISTORY_MESSAGES < length l →
  trim_list l = drop (length l - MAX_HISTORY_MESSAGES) l
  ∧ length (trim_list l) = MAX_HISTORY_MESSAGES.
Proof.
  intros H. unfold trim_list, last_n.
  destruct (Nat.ltb_spec (MAX_HISTORY_MESSAGES * 2) (length l)); [|lia].
  split; [done|]. rewrite length_drop. lia.
Qed.

(** Trimming after two appends drops old messages only. *)
Lemma trim_list_two_new (old : list Message) (a b : Message) :
  ∃ k, trim_list (old ++ [a; b]) = drop k old ++ [a; b]
       ∧ (length old + 2 ≤ 2 * MAX_HISTORY_MESSAGES → k = 0).
Proof.
  destruct (decide (length (old ++ [a; b]) ≤ 2 * MAX_HISTORY_MESSAGES)) as [Hs|Hl].
  - exists 0. by rewrite trim_list_short.
  - rewrite length_app in Hl. cbn [length] in Hl. unfold MAX_HISTORY_MESSAGES in *.
    exists (length old + 2 - 20). split; [|lia].
    destruct (trim_list_long (old ++ [a; b])) as [-> _].
    { rewrite length_app. cbn [length]. unfold MAX_HISTORY_MESSAGES. lia. }
    rewrite length_app. cbn [length]. unfold MAX_HISTORY_MESSAGES.
    rewrite drop_app_le by lia. done.
Qed.

(** C7: when the stored count of a session exceeds 2N (N = 20), the trim
    step of lines 944-945 replaces the stored sequence with exactly its last
    N messages, in order, and touches no other session. *)
Theorem trim_keeps_most_recent (sessions : Store) (sid : pystr) (l : list Message) :
  sessions !! sid = Some l →
  2 * MAX_HISTORY_MESSAGES < length l →
  let kept := drop (length l - MAX_HISTORY_MESSAGES) l in
  MAX_HISTORY_MESSAGES = 20
  ∧ SessionStore.trim sessions sid !! sid = Some kept
  ∧ length kept = MAX_HISTORY_MESSAGES
  ∧ l = take (length l - MAX_HISTORY_MESSAGES) l ++ kept
  ∧ (∀ i, i < MAX_HISTORY_MESSAGES →
          kept !! i = l !! (length l - MAX_HISTORY_MESSAGES + i))
  ∧ (∀ k, k ≠ sid → SessionStore.trim sessions sid !! k = sessions !! k).
Proof.
  intros Hl Hlong kept.
  destruct (trim_list_long l Hlong) as [Ht Hlen].
  assert (SessionStore.trim sessions sid = <[sid := kept]> sessions) as ->.
  { rewrite <- (insert_id sessions sid l Hl) at 1.
    by rewrite trim_insert, Ht. }
  split; [done|].
  split; [by rewrite lookup_insert_eq|].
  split; [unfold kept; by rewrite <- Ht|].
  split; [unfold kept; by rewrite take_drop|].
  split; [intros i _; unfold kept; by rewrite lookup_drop|].
  intros k Hk. by rewrite lookup_insert_ne.
Qed.

Lemma trim_keeps_most_recent_witness :
  SessionStore.trim (with_history 41) s1 !! s1
  = Some (old_message <$> seq 21 20).
Proof.
  destruct (trim_keeps_most_recent (with_history 41) s1
              (old_message <$> seq 0 41)) as (_ & H & _).
  - reflexivity.
  - vm_compute. lia.
  - rewrite H. reflexivity.
Defined.

(** ** The turn *)

(** C2: when the transcriber returns an error, the turn returns a result
    with [success = false] and [transcript = None]; the history of every
    session reads as before the call, and [message_count] is the count
    stored before the call. *)
Theorem transcription_error_leaves_history
    (w : World) (sid : pystr) (file : UploadFile) (sessions : Store) (e : pystr) :
  valid_content_type file = true →
  (safe_transcribe_audio w (audio_bytes file)).2 = Some e →
  ∃ r final,
    chat_with_history w sid file sessions = (Return r, final)
    ∧ ChatResponse.success r = false
    ∧ ChatResponse.transcript r = None
    ∧ (∀ k, SessionStore.get final k = SessionStore.get sessions k)
    ∧ ChatResponse.message_count r = length (SessionStore.get sessions sid).
Proof.
  intros Hv He.
  destruct (safe_transcribe_audio_cases w (audio_bytes file))
    as [(t & _ & Ht)|(e' & Hne & Ht)]; rewrite Ht in He; [done|].
  simpl in He. injection He as ->.
  assert (∀ k, SessionStore.get (<[sid := SessionStore.get sessions sid]> sessions) k
               = SessionStore.get sessions k) as Hsame.
  { intros k. destruct (decide (k = sid)) as [->|Hk];
      [apply get_insert | by apply get_insert_ne]. }
  unfold chat_with_history, chat_body.
  run. destruct (fault w at_entry); run; [by do 2 eexists|].
  destruct (fault w at_filename); run; [by do 2 eexists|].
  rewrite Hv. run.
  destruct (fault w at_read); run; [by do 2 eexists|].
  rewrite Ht. run. rewrite (truthy_nonempty _ Hne). run.
  destruct (fault w at_stt_fallback); run; by do 2 eexists.
Qed.

Lemma transcription_error_leaves_history_witness :
  ∃ r final,
    chat_with_history stt_silent s1 wav (with_history 3) = (Return r, final)
    ∧ ChatResponse.success r = false
    ∧ ChatResponse.transcript r = None
    ∧ (∀ k, SessionStore.get final k = SessionStore.get (with_history 3) k)
    ∧ ChatResponse.message_count r = length (SessionStore.get (with_history 3) s1).
Proof.
  apply (transcription_error_leaves_history stt_silent s1 wav (with_history 3)
           (py "No speech detected in the audio")); reflexivity.
Defined.

(** C1, as the code has it: when transcription succeeds, the language
    model returns an error and no code outside the adapters raises on the
    path of the turn, the turn returns a result with [fallback_used = true]
    and [success = true], whatever the synthesis does; the session's stored
    sequence is the old one (possibly with its oldest messages trimmed away,
    and whole whenever the count stays within 2N) followed by exactly two new
    messages: the user transcript, then the fixed [llm_error] text as the
    assistant message.  When code outside the adapters does raise on that
    path, the handler returns a result that is not a success. *)
Theorem responder_failure_degrades
    (w : World) (sid : pystr) (file : UploadFile) (sessions : Store)
    (u e : pystr) :
  valid_content_type file = true →
  safe_transcribe_audio w (audio_bytes file) = (Some u, None) →
  (safe_generate_llm_response w (prompt_after w sessions sid u)).2 = Some e →
  let old := SessionStore.get sessions sid in
  let new := [user_entry w u;
              assistant_entry w (FALLBACK_MESSAGES llm_error)] in
  (first_raise w file = None →
   ∃ r final k,
     chat_with_history w sid file sessions = (Return r, final)
     ∧ ChatResponse.fallback_used r = true
     ∧ ChatResponse.success r = true
     ∧ ChatResponse.llm_response r = Some (FALLBACK_MESSAGES llm_error)
     ∧ SessionStore.get final sid = trim_list (old ++ new)
     ∧ SessionStore.get final sid = drop k old ++ new
     ∧ (length old + 2 ≤ 2 * MAX_HISTORY_MESSAGES → k = 0)
     ∧ ChatResponse.message_count r = length (drop k old ++ new)
     ∧ (∀ j, j ≠ sid → final !! j = sessions !! j))
  ∧ (∀ x, first_raise w file = Some x →
       ∃ r final,
         chat_with_history w sid file sessions = (Return r, final)
         ∧ ChatResponse.success r = false).
Proof.
  intros Hv Hstt Hllm old new. split.
  - intros Hq.
    destruct (safe_generate_llm_response_cases w (prompt_after w sessions sid u))
      as [(t & Ht)|(e' & Hne & Ht)]; rewrite Ht in Hllm; [done|].
    destruct (synthesis_of w true (FALLBACK_MESSAGES llm_error))
      as [url te] eqn:Htts.
    rewrite (turn_llm_failed_on_path w sid file sessions Hv Hq u None e' url te
               Hstt Ht Hne Htts).
    destruct (trim_list_two_new old (user_entry w u)
                (assistant_entry w (FALLBACK_MESSAGES llm_error)))
      as (k & Hk & Hk0).
    fold old. fold new in Hk |- *.
    eexists _, _, k. split; [reflexivity|]. cbn [ChatResponse.fallback_used
      ChatResponse.success ChatResponse.llm_response ChatResponse.message_count].
    rewrite get_insert, <- Hk.
    repeat split; try done.
    intros j Hj. by rewrite lookup_insert_ne.
  - intros x Hx.
    destruct (turn_raised w sid file sessions x Hv Hx)
      as (r & final & Hrun & Hs & _).
    by exists r, final.
Qed.

Lemma responder_failure_degrades_witness :
  ∃ r final k,
    chat_with_history llm_down s1 wav (with_history 39) = (Return r, final)
    ∧ ChatResponse.fallback_used r = true
    ∧ ChatResponse.success r = true
    ∧ ChatResponse.llm_response r = Some (FALLBACK_MESSAGES llm_error)
    ∧ SessionStore.get final s1
      = trim_list (SessionStore.get (with_history 39) s1
          ++ [user_entry llm_down (py "Hello");
              assistant_entry llm_down (FALLBACK_MESSAGES llm_error)])
    ∧ SessionStore.get final s1
      = drop k (SessionStore.get (with_history 39) s1)
          ++ [user_entry llm_down (py "Hello");
              assistant_entry llm_down (FALLBACK_MESSAGES llm_error)]
    ∧ (length (SessionStore.get (with_history 39) s1) + 2
         ≤ 2 * MAX_HISTORY_MESSAGES → k = 0)
    ∧ ChatResponse.message_count r
      = length (drop k (SessionStore.get (with_history 39) s1)
                  ++ [user_entry llm_down (py "Hello");
                      assistant_entry llm_down (FALLBACK_MESSAGES llm_error)])
    ∧ (∀ j, j ≠ s1 → final !! j = with_history 39 !! j).
Proof.
  destruct (responder_failure_degrades llm_down s1 wav (with_history 39)
              (py "Hello") (py "AI language model is not available"))
    as [H _]; [reflexivity..|].
  apply H. reflexivity.
Defined.

(** C1 as stated fails when code outside the adapters raises after the
    language model has failed.  With the transcription succeeding and the
    language model not configured, a raise while the response is built gives
    a result that is not a success, and a raise before the second append
    leaves the user message alone in the session. *)
Lemma responder_failure_with_raise_is_no_success :
  valid_content_type wav = true
  ∧ safe_transcribe_audio (with_fault llm_down finalizing (py "boom"))
      (audio_bytes wav) = (Some (py "Hello"), None)
  ∧ (safe_generate_llm_response (with_fault llm_down finalizing (py "boom"))
       (prompt_after (with_fault llm_down finalizing (py "boom")) ∅ s1
          (py "Hello"))).2
    = Some (py "AI language model is not available")
  ∧ (∃ r final,
       chat_with_history (with_fault llm_down finalizing (py "boom")) s1 wav ∅
       = (Return r, final)
       ∧ ChatResponse.success r = false
       ∧ ChatResponse.fallback_used r = true)
  ∧ (∃ r final,
       chat_with_history
         (with_fault llm_down before_assistant_append (py "boom")) s1 wav ∅
       = (Return r, final)
       ∧ ChatResponse.success r = false
       ∧ SessionStore.get final s1
         = [user_entry llm_down (py "Hello")]).
Proof.
  split; [reflexivity|]. split; [reflexivity|]. split; [reflexivity|].
  split; do 2 eexists; (split; [vm_compute; reflexivity|]);
    split; reflexivity.
Qed.

(** C3, as the code has it: a turn on an audio upload always returns a
    result, and a result that is not a success carries an error class (one,
    the field holding at most one).  When no code outside the adapters raises
    on the path of the turn, the class is that of the earliest-failing stage
    ([None] when no stage fails): it is [tts_error] only when transcription
    and generation both succeeded and the synthesis failed, and then the
    result still carries the transcript and the reply, has no audio
    reference, and counts as a success.  When such code raises, the result is
    not a success and its class is the one [get_error_type] reads off the
    text of the exception, whatever class a stage had set before. *)
Theorem one_error_class_per_turn
    (w : World) (sid : pystr) (file : UploadFile) (sessions : Store) :
  valid_content_type file = true →
  ∃ r final,
    chat_with_history w sid file sessions = (Return r, final)
    ∧ (ChatResponse.success r = false → is_Some (ChatResponse.error_type r))
    ∧ (first_raise w file = None →
       ChatResponse.error_type r = earliest_failure w sid file sessions
       ∧ (ChatResponse.error_type r = Some tts_error →
          ∃ u reply e,
            safe_transcribe_audio w (audio_bytes file) = (Some u, None)
            ∧ safe_generate_llm_response w (prompt_after w sessions sid u)
              = (Some reply, None)
            ∧ synthesis_of w false reply = (None, Some e)
            ∧ ChatResponse.transcript r = Some u
            ∧ ChatResponse.llm_response r = Some reply
            ∧ ChatResponse.audio_url r = None
            ∧ ChatResponse.success r = true))
    ∧ (∀ x, first_raise w file = Some x →
         ChatResponse.success r = false
         ∧ ChatResponse.error_type r = Some (get_error_type w x)).
Proof.
  intros Hv.
  destruct (chat_with_history_returns w sid file sessions Hv)
    as (r & final & Hrun & Hclass).
  exists r, final. split; [done|]. split; [done|]. split.
  - intros Hq. revert Hrun. clear Hclass. unfold earliest_failure.
    destruct (safe_transcribe_audio_cases w (audio_bytes file))
      as [(u & _ & Hu)|(e & Hne & He)].
    2:{ rewrite (turn_stt_failed_on_path w sid file sessions Hv Hq None e He Hne),
          He.
        intros [= <- <-]. by split. }
    rewrite Hu.
    destruct (safe_generate_llm_response_cases w (prompt_after w sessions sid u))
      as [(reply & Hr)|(e & Hne & He)].
    2:{ destruct (synthesis_of w true (FALLBACK_MESSAGES llm_error))
          as [url te] eqn:Htts.
        rewrite (turn_llm_failed_on_path w sid file sessions Hv Hq u None e url te
                   Hu He Hne Htts), He.
        intros [= <- <-]. by split. }
    rewrite Hr.
    destruct (safe_generate_tts_cases w
                (Truncate.prepare_tts_text Truncate.MAX_MURF_CHARS reply)
                (py "en-US-claire") (py "Cheerful"))
      as [(url & Hs)|(e & Hne & Hs)]; fold (synthesis_of w false reply) in Hs.
    + rewrite (turn_llm_ok_on_path w sid file sessions Hv Hq u reply url None
                 Hu Hr Hs), Hs.
      intros [= <- <-]. by split.
    + rewrite (turn_llm_ok_on_path w sid file sessions Hv Hq u reply None (Some e)
                 Hu Hr Hs), Hs.
      intros [= <- <-].
      cbn [ChatResponse.error_type]. destruct e as [|c e]; [done|].
      split; [done|]. intros _. by exists u, reply, (c :: e).
  - intros x Hx.
    destruct (turn_raised w sid file sessions x Hv Hx)
      as (r' & final' & Hrun' & Hs & _ & He).
    rewrite Hrun in Hrun'. injection Hrun' as <- <-. by split.
Qed.

Lemma one_error_class_per_turn_witness :
  ∃ r final,
    chat_with_history tts_down s1 wav ∅ = (Return r, final)
    ∧ (ChatResponse.success r = false → is_Some (ChatResponse.error_type r))
    ∧ (first_raise tts_down wav = None →
       ChatResponse.error_type r = earliest_failure tts_down s1 wav ∅
       ∧ (ChatResponse.error_type r = Some tts_error →
          ∃ u reply e,
            safe_transcribe_audio tts_down (audio_bytes wav) = (Some u, None)
            ∧ safe_generate_llm_response tts_down (prompt_after tts_down ∅ s1 u)
              = (Some reply, None)
            ∧ synthesis_of tts_down false reply = (None, Some e)
            ∧ ChatResponse.transcript r = Some u
            ∧ ChatResponse.llm_response r = Some reply
            ∧ ChatResponse.audio_url r = None
            ∧ ChatResponse.success r = true))
    ∧ (∀ x, first_raise tts_down wav = Some x →
         ChatResponse.success r = false
         ∧ ChatResponse.error_type r = Some (get_error_type tts_down x)).
Proof.
  apply (one_error_class_per_turn tts_down s1 wav ∅). reflexivity.
Defined.

(** C3 as stated fails when code outside the adapters raises after a
    stage has failed: here the language model is not configured, so the
    earliest-failing stage is the generation and [llm_error] is set, but a
    raise while the response is built, with a text that mentions [tts],
    makes the turn carry [tts_error]. *)
Lemma raise_overrides_earlier_class :
  earliest_failure (with_fault llm_down finalizing (py "tts service slow"))
    s1 wav ∅ = Some llm_error
  ∧ ∃ r final,
      chat_with_history
        (with_fault llm_down finalizing (py "tts service slow")) s1 wav ∅
      = (Return r, final)
      ∧ ChatResponse.success r = false
      ∧ ChatResponse.error_type r = Some tts_error
      ∧ ChatResponse.error_type r ≠ Some llm_error.
Proof.
  split; [reflexivity|].
  do 2 eexists. split; [vm_compute; reflexivity|].
  split; [reflexivity|]. split; [reflexivity|]. discriminate.
Qed.

(** The sample turns classify as expected. *)
Example earliest_failure_samples :
  earliest_failure all_up s1 wav ∅ = None
  ∧ earliest_failure stt_silent s1 wav ∅ = Some stt_error
  ∧ earliest_failure llm_down s1 wav ∅ = Some llm_error
  ∧ earliest_failure tts_down s1 wav ∅ = Some tts_error
  ∧ earliest_failure llm_tts_down s1 wav ∅ = Some llm_error
  ∧ ChatResponse.error_type
      <$> (match (chat_with_history llm_tts_down s1 wav ∅).1 with
           | Return r => Some r
           | Raise _ => None
           end) = Some (Some llm_error).
Proof. vm_compute. done. Qed.

(** ** Exceptions raised outside the adapters *)

Lemma at_point_none w p : fault w p = None → at_point w p = mret ().
Proof. intros H. unfold at_point. by rewrite H. Qed.

Lemma at_point_some w p e :
  fault w p = Some e → at_point w p = raise (Exception e).
Proof. intros H. unfold at_point. by rewrite H. Qed.

(** Resolve every point before the faulty one, and the faulty one. *)
Ltac settle_points Hq Hp :=
  repeat match goal with
    | |- context [at_point ?w ?q] =>
        first [ rewrite (at_point_none w q) by (apply Hq; cbn; lia)
              | rewrite (at_point_some w q _ Hp) ]
    end.

(** C9: when code outside the adapters raises after the user message has
    been appended, the handler returns a result with [success = false] and
    [fallback_used = true] that still carries the transcript; the messages
    appended so far stay in the store (the user message, and the assistant
    message once it was appended, trimmed if the exception comes after the
    trim), and [message_count] counts them. *)
Theorem unexpected_error_keeps_appended
    (w : World) (sid : pystr) (file : UploadFile) (sessions : Store)
    (u e : pystr) (p : ProgramPoint) :
  valid_content_type file = true →
  safe_transcribe_audio w (audio_bytes file) = (Some u, None) →
  point_index building_context ≤ point_index p →
  quiet_until w p →
  fault w p = Some e →
  let old := SessionStore.get sessions sid in
  ∃ r final reply,
    chat_with_history w sid file sessions = (Return r, final)
    ∧ ChatResponse.success r = false
    ∧ ChatResponse.fallback_used r = true
    ∧ ChatResponse.transcript r = Some u
    ∧ ChatResponse.error_type r = Some (get_error_type w e)
    ∧ ChatResponse.message_count r = length (SessionStore.get final sid)
    ∧ SessionStore.get final sid
      = match p with
        | building_context | before_assistant_append =>
            old ++ [user_entry w u]
        | before_synthesize | after_synthesize =>
            old ++ [user_entry w u; assistant_entry w reply]
        | _ => trim_list (old ++ [user_entry w u; assistant_entry w reply])
        end.
Proof.
  intros Hv Hstt Hge Hq Hp old. subst old.
  destruct (safe_generate_llm_response_cases w (prompt_after w sessions sid u))
    as [(t & Ht)|(e' & Hne & Ht)]; unfold prompt_after, user_entry in Ht.
  - (* the model answers [t] *)
    destruct p; cbn in Hge; try lia;
      unfold chat_with_history, chat_body; settle_points Hq Hp;
      run; rewrite Hv; run; rewrite Hstt; run; cbn [truthy]; run;
      try (rewrite Ht; run; cbn [truthy]; run);
      try (destruct (safe_generate_tts w _ _ _) as [url te]; run);
      rewrite <- ?app_assoc; cbn [app];
      eexists _, _, t; (split; [reflexivity|]);
      cbn [ChatResponse.success ChatResponse.fallback_used
           ChatResponse.transcript ChatResponse.error_type
           ChatResponse.message_count];
      rewrite get_insert; done.
  - (* the model fails and the fixed text is stored *)
    destruct p; cbn in Hge; try lia;
      unfold chat_with_history, chat_body; settle_points Hq Hp;
      run; rewrite Hv; run; rewrite Hstt; run; cbn [truthy]; run;
      try (rewrite Ht; run; rewrite (truthy_nonempty _ Hne); run);
      try (destruct (safe_generate_tts w _ _ _) as [url te]; run);
      rewrite <- ?app_assoc; cbn [app];
      eexists _, _, (FALLBACK_MESSAGES llm_error); (split; [reflexivity|]);
      cbn [ChatResponse.success ChatResponse.fallback_used
           ChatResponse.transcript ChatResponse.error_type
           ChatResponse.message_count];
      rewrite get_insert; done.
Qed.

Lemma unexpected_error_keeps_appended_witness :
  ∃ r final reply,
    chat_with_history (faulty before_synthesize (py "Connection lost"))
      s1 wav (with_history 3) = (Return r, final)
    ∧ ChatResponse.success r = false
    ∧ ChatResponse.fallback_used r = true
    ∧ ChatResponse.transcript r = Some (py "Hello")
    ∧ ChatResponse.error_type r
      = Some (get_error_type (faulty before_synthesize (py "Connection lost"))
                (py "Connection lost"))
    ∧ ChatResponse.message_count r = length (SessionStore.get final s1)
    ∧ SessionStore.get final s1
      = SessionStore.get (with_history 3) s1
          ++ [user_entry (faulty before_synthesize (py "Connection lost"))
                (py "Hello");
              assistant_entry (faulty before_synthesize (py "Connection lost"))
                reply].
Proof.
  apply (unexpected_error_keeps_appended
           (faulty before_synthesize (py "Connection lost")) s1 wav
           (with_history 3) (py "Hello") (py "Connection lost")
           before_synthesize).
  - reflexivity.
  - reflexivity.
  - cbn. lia.
  - intros q Hlt. destruct q; cbn in Hlt; try lia; reflexivity.
  - reflexivity.
Defined.

(** The handler classifies by the text of the exception, also when a stage
    had set a class before: here the language model is down, and building
    the response then fails with a time-out. *)
Example handler_classifies_by_text :
  ChatResponse.error_type
    <$> (match (chat_with_history
                  (with_fault llm_down finalizing (py "Read timeout"))
                  s1 wav ∅).1 with
         | Return r => Some r
         | Raise _ => None
         end) = Some (Some connection_error).
Proof. vm_compute. done. Qed.

(** ** Session entries: creation on a turn, none on a read, deletion *)

(** C10: a chat turn on a session id absent from the store leaves an entry
    for that id in the store on every path; when transcription fails that
    entry is the empty list and nothing else changes.  [get_chat_history]
    on an absent id reports no messages and leaves the store as it was,
    without an entry for the id. *)
Theorem turn_creates_entry_history_read_does_not
    (w : World) (sid : pystr) (file : UploadFile) (sessions : Store) :
  sessions !! sid = None →
  is_Some ((chat_with_history w sid file sessions).2 !! sid)
  ∧ (∀ e, valid_content_type file = true →
          (safe_transcribe_audio w (audio_bytes file)).2 = Some e →
          (chat_with_history w sid file sessions).2 = <[sid := []]> sessions)
  ∧ (get_chat_history sid sessions).2 = sessions
  ∧ (get_chat_history sid sessions).2 !! sid = None
  ∧ HistoryResponse.messages (get_chat_history sid sessions).1 = []
  ∧ HistoryResponse.message_count (get_chat_history sid sessions).1 = 0.
Proof.
  intros Habsent.
  assert (SessionStore.get sessions sid = []) as Hget
    by (unfold SessionStore.get; by rewrite Habsent).
  split.
  { destruct (chat_with_history_frame w sid file sessions) as [l ->].
    rewrite lookup_insert_eq. by eexists. }
  split.
  { intros e Hv He.
    destruct (safe_transcribe_audio_cases w (audio_bytes file))
      as [(t & _ & Ht)|(e' & Hne & Ht)]; rewrite Ht in He; [done|].
    unfold chat_with_history, chat_body.
    run. destruct (fault w at_entry); run; rewrite ?Hget; [done|].
    destruct (fault w at_filename); run; [done|].
    rewrite Hv. run.
    destruct (fault w at_read); run; [done|].
    rewrite Ht. run. rewrite (truthy_nonempty _ Hne). run.
    destruct (fault w at_stt_fallback); run; done. }
  unfold get_chat_history. cbn [fst snd HistoryResponse.messages
                                HistoryResponse.message_count].
  by rewrite Hget.
Qed.

Lemma turn_creates_entry_history_read_does_not_witness :
  is_Some ((chat_with_history stt_silent s1 wav ∅).2 !! s1)
  ∧ (get_chat_history s1 ∅).2 !! s1 = None.
Proof.
  destruct (turn_creates_entry_history_read_does_not stt_silent s1 wav ∅)
    as (H1 & _ & _ & H2 & _); [reflexivity|].
  split; [exact H1 | exact H2].
Defined.

(** The decimal digits of a count start with a digit, so the message of a
    successful deletion cannot be mistaken for the other one. *)
Lemma cleared_is_not_not_found (n : nat) (sid : pystr) :
  py "Cleared " ++ str_of_nat n ++ py " messages from session " ++ sid
  ≠ not_found_message.
Proof. done. Qed.

(** C8: [clear_chat_history] leaves no entry for the session id and touches
    no other entry.  Its response tells whether an entry existed: the message
    is "Cleared <count> messages from session <id>" exactly when the id was
    in the store, and "Session not found or already empty" exactly when it
    was not.  (The [success] field is [true] in both cases.) *)
Theorem clear_deletes_and_reports (sid : pystr) (sessions : Store) :
  let r := (clear_chat_history sid sessions).1 in
  let final := (clear_chat_history sid sessions).2 in
  final !! sid = None
  ∧ (∀ k, k ≠ sid → final !! k = sessions !! k)
  ∧ (∀ l, sessions !! sid = Some l →
          ClearResponse.message r
          = py "Cleared " ++ str_of_nat (length l)
              ++ py " messages from session " ++ sid)
  ∧ (sessions !! sid = None ↔ ClearResponse.message r = not_found_message)
  ∧ ClearResponse.success r = true.
Proof.
  unfold clear_chat_history.
  destruct (sessions !! sid) as [l|] eqn:E.
  - rewrite bool_decide_eq_true_2 by by eexists.
    rewrite getitem_eq. unfold SessionStore.get. rewrite E.
    cbn [default fst snd ClearResponse.message ClearResponse.success].
    rewrite delete_insert_eq.
    split; [apply lookup_delete_eq|].
    split; [intros k Hk; by rewrite lookup_delete_ne|].
    split; [by intros ? [= <-]|].
    split; [|done].
    split; [done|]. intros H. by apply cleared_is_not_not_found in H.
  - rewrite bool_decide_eq_false_2 by (by intros [? ?]).
    cbn [fst snd ClearResponse.message ClearResponse.success].
    by repeat split.
Qed.

Lemma clear_deletes_and_reports_witness :
  (clear_chat_history s1 (with_history 3)).2 !! s1 = None
  ∧ ClearResponse.message (clear_chat_history s1 (with_history 3)).1
    ≠ not_found_message
  ∧ ClearResponse.message (clear_chat_history s1 ∅).1 = not_found_message.
Proof.
  destruct (clear_deletes_and_reports s1 (with_history 3))
    as (Hgone & _ & _ & Hpresent & _).
  destruct (clear_deletes_and_reports s1 ∅) as (_ & _ & _ & Habsent & _).
  split; [exact Hgone|]. split.
  - intros Heq. apply Hpresent in Heq. discriminate Heq.
  - apply Habsent. reflexivity.
Defined.

Example clear_samples :
  (clear_chat_history s1 (with_history 3)).2 = ∅
  ∧ ClearResponse.message (clear_chat_history s1 (with_history 3)).1
    = py "Cleared 3 messages from session s1"
  ∧ ClearResponse.message (clear_chat_history s1 ∅).1
    = py "Session not found or already empty"
  ∧ ClearResponse.message (clear_chat_history s1 (with_history 0)).1
    = py "Cleared 0 messages from session s1".
Proof. vm_compute. done. Qed.

(** ** [rfind] and slicing *)

Section Rfind.
Local Open Scope Z_scope.
Implicit Types (c : N) (s : pystr) (i j : nat).

Lemma rfind_bounds c s : -1 ≤ rfind c s < len s.
Proof.
  unfold len. induction s as [|x s IH]; cbn [rfind length]; [lia|].
  destruct (Z.leb_spec 0 (rfind c s)); [lia|].
  destruct (N.eqb x c); lia.
Qed.

Lemma rfind_lookup c s :
  0 ≤ rfind c s → s !! Z.to_nat (rfind c s) = Some c.
Proof.
  induction s as [|x s IH]; cbn [rfind]; [lia|].
  destruct (Z.leb_spec 0 (rfind c s)) as [Hr|Hr].
  - intros _. replace (Z.to_nat (rfind c s + 1)) with (S (Z.to_nat (rfind c s))) by lia.
    by apply IH.
  - destruct (N.eqb_spec x c) as [->|]; [done|lia].
Qed.

Lemma rfind_max c s j : s !! j = Some c → Z.of_nat j ≤ rfind c s.
Proof.
  revert j. induction s as [|x s IH]; intros [|j] Hj; try done; cbn [rfind].
  - injection Hj as ->.
    destruct (Z.leb_spec 0 (rfind c s)); [lia|]. by rewrite N.eqb_refl.
  - apply IH in Hj.
    destruct (Z.leb_spec 0 (rfind c s)); lia.
Qed.

(** The index found is the one of the rightmost occurrence. *)
Lemma rfind_eq c s i :
  s !! i = Some c →
  (∀ j, (i < j)%nat → s !! j ≠ Some c) →
  rfind c s = Z.of_nat i.
Proof.
  intros Hi Hlast. pose proof (rfind_max c s i Hi) as Hge.
  pose proof (rfind_lookup c s ltac:(lia)) as Hr.
  destruct (decide (Z.to_nat (rfind c s) ≤ i)%nat); [lia|].
  exfalso. apply (Hlast (Z.to_nat (rfind c s))); [lia|done].
Qed.

Lemma rfind_le c s (k : Z) :
  (∀ j, k < Z.of_nat j → s !! j ≠ Some c) → -1 ≤ k → rfind c s ≤ k.
Proof.
  intros Hnone Hk. destruct (Z.le_gt_cases (rfind c s) k) as [|Hgt]; [done|].
  exfalso. apply (Hnone (Z.to_nat (rfind c s))); [lia|].
  apply rfind_lookup. lia.
Qed.

Lemma slice_to_take {A} (k : Z) (l : list A) :
  0 ≤ k → slice_to k l = take (Z.to_nat k) l.
Proof. intros. unfold slice_to. destruct (Z.ltb_spec k 0); [lia|done]. Qed.

Lemma slice_to_nat {A} i (l : list A) : slice_to (Z.of_nat i) l = take i l.
Proof. rewrite slice_to_take by lia. by rewrite Nat2Z.id. Qed.

End Rfind.

(** ** The window of a text longer than the budget *)

Section Window.
Local Open Scope Z_scope.
Context (max : Z) (T : pystr).
Context (Hmax : 0 ≤ max) (Hlong : max < len T).

Local Abbreviation W := (take (Z.to_nat max) T).

(** The index the source calls [last_sentence] / [last_sentence_end]. *)
Local Abbreviation last_sentence :=
  (Z.max (Z.max (rfind dot W) (rfind bang W)) (rfind qmark W)).

Lemma window_lookup (j : nat) : Z.of_nat j < max → W !! j = T !! j.
Proof. intros. apply lookup_take_lt. lia. Qed.

Lemma window_length : len W = max.
Proof. unfold len in *. rewrite length_take_le; lia. Qed.

Lemma window_lookup_lt (j : nat) (c : N) : W !! j = Some c → Z.of_nat j < max.
Proof.
  intros Hj. apply lookup_lt_Some in Hj.
  pose proof window_length. unfold len in *. lia.
Qed.

Lemma window_rfind_lt (c : N) : rfind c W < max.
Proof. pose proof (rfind_bounds c W). pose proof window_length. lia. Qed.

(** Both call sites, with the window made explicit. *)
Lemma prepare_tts_text_long :
  Truncate.prepare_tts_text max T
  = if Truncate.gt_tenths last_sentence max 8
    then slice_to (last_sentence + 1) W
    else (if 0 <? rfind space W then slice_to (rfind space W) W else W)
           ++ ellipsis.
Proof.
  unfold Truncate.prepare_tts_text.
  destruct (Z.ltb_spec max (len T)); [|lia].
  by rewrite slice_to_take.
Qed.

Lemma truncate_llm_text_long :
  Truncate.truncate_llm_text max T
  = if Truncate.gt_tenths last_sentence max 8
    then slice_to (last_sentence + 1) W
    else if Truncate.gt_tenths (rfind space W) max 9
         then slice_to (rfind space W) W ++ ellipsis
         else W ++ ellipsis.
Proof.
  unfold Truncate.truncate_llm_text.
  destruct (Z.ltb_spec max (len T)); [|lia].
  by rewrite slice_to_take.
Qed.

(** Cutting the window before one of its positions cuts the text there. *)
Lemma slice_window (k : Z) : 0 ≤ k ≤ max → slice_to k W = take (Z.to_nat k) T.
Proof.
  intros. rewrite slice_to_take by lia.
  rewrite take_take. f_equal. lia.
Qed.

Lemma rfind_window_eq (c : N) (i : nat) :
  Z.of_nat i < max →
  T !! i = Some c →
  (∀ j, (i < j)%nat → Z.of_nat j < max → T !! j ≠ Some c) →
  rfind c W = Z.of_nat i.
Proof.
  intros Hi Hc Hlast. apply rfind_eq; [by rewrite window_lookup|].
  intros j Hj Hw. pose proof (window_lookup_lt _ _ Hw).
  rewrite window_lookup in Hw by done. by eapply Hlast.
Qed.

Lemma rfind_window_le (c : N) (k : Z) :
  -1 ≤ k →
  (∀ j, k < Z.of_nat j → Z.of_nat j < max → T !! j ≠ Some c) →
  rfind c W ≤ k.
Proof.
  intros Hk Hnone. apply rfind_le; [|done].
  intros j Hj Hw. pose proof (window_lookup_lt _ _ Hw).
  rewrite window_lookup in Hw by done. by eapply Hnone.
Qed.

Lemma last_sentence_eq (i : nat) (c : N) :
  Z.of_nat i < max →
  T !! i = Some c → terminator c →
  (∀ j c', (i < j)%nat → Z.of_nat j < max → T !! j = Some c' → ¬ terminator c') →
  last_sentence = Z.of_nat i.
Proof.
  intros Hi Hc Hterm Hlast.
  assert (∀ d, terminator d → rfind d W ≤ Z.of_nat i) as Hle.
  { intros d Hd. apply rfind_window_le; [lia|].
    intros j Hj Hjm Hjd. apply (Hlast j d); [lia|done..]. }
  assert (rfind c W = Z.of_nat i) as Heq.
  { apply rfind_window_eq; [done..|].
    intros j Hj Hjm Hjc. by apply (Hlast j c). }
  pose proof (Hle dot ltac:(by left)).
  pose proof (Hle bang ltac:(by right; left)).
  pose proof (Hle qmark ltac:(by right; right)).
  destruct Hterm as [-> | [-> | ->] ]; lia.
Qed.

Lemma last_sentence_le (k : Z) :
  -1 ≤ k →
  (∀ j c', k < Z.of_nat j → Z.of_nat j < max → T !! j = Some c' → ¬ terminator c') →
  last_sentence ≤ k.
Proof.
  intros Hk Hnone.
  assert (∀ d, terminator d → rfind d W ≤ k) as Hle.
  { intros d Hd. apply rfind_window_le; [done|].
    intros j Hj Hjm Hjd. by apply (Hnone j d). }
  pose proof (Hle dot ltac:(by left)).
  pose proof (Hle bang ltac:(by right; left)).
  pose proof (Hle qmark ltac:(by right; right)).
  lia.
Qed.

End Window.

(** ** Cutting at a sentence terminator *)

(** C5, as the code has it: for a text longer than the budget whose window
    holds a sentence terminator at an index strictly greater than
    0.8 x max_chars, both call sites return the text up to and including the
    rightmost terminator of the window, with no ellipsis. *)
Theorem cut_at_last_terminator (max : Z) (T : pystr) (i : nat) (c : N) :
  (0 ≤ max)%Z → (max < len T)%Z →
  (Z.of_nat i < max)%Z → T !! i = Some c → terminator c →
  (∀ j c', i < j → (Z.of_nat j < max)%Z → T !! j = Some c' → ¬ terminator c') →
  (4 * max < 5 * Z.of_nat i)%Z →
  Truncate.prepare_tts_text max T = take (S i) T
  ∧ Truncate.truncate_llm_text max T = take (S i) T
  ∧ last (take (S i) T) = Some c.
Proof.
  intros Hmax Hlong Hi Hc Hterm Hlast Hfar.
  rewrite prepare_tts_text_long, truncate_llm_text_long by done.
  rewrite (last_sentence_eq max T Hmax Hlong i c) by done.
  unfold Truncate.gt_tenths.
  destruct (Z.ltb_spec (8 * max) (10 * Z.of_nat i)); [|lia].
  rewrite slice_window by lia.
  replace (Z.to_nat (Z.of_nat i + 1)) with (S i) by lia.
  repeat split; try done.
  rewrite (take_S_r _ _ _ Hc). apply last_snoc.
Qed.

Lemma cut_at_last_terminator_witness :
  Truncate.prepare_tts_text 3000 period_past_80 = take 2402 period_past_80
  ∧ Truncate.truncate_llm_text 3000 period_past_80 = take 2402 period_past_80
  ∧ last (take 2402 period_past_80) = Some dot.
Proof.
  apply (cut_at_last_terminator 3000 period_past_80 2401 dot).
  - lia.
  - vm_compute. reflexivity.
  - lia.
  - reflexivity.
  - by left.
  - intros j c' Hj Hjm Hc' Hterm.
    assert (j < 3000) as Hlt by lia.
    unfold period_past_80 in Hc'.
    rewrite lookup_app_r in Hc' by (rewrite length_replicate; lia).
    rewrite length_replicate in Hc'.
    destruct (j - 2401) as [|k] eqn:Hk; [lia|].
    change (replicate 699 97%N !! k = Some c') in Hc'.
    apply lookup_replicate_1 in Hc' as [-> _].
    by destruct Hterm as [? | [? | ?] ].
  - lia.
Defined.

(** C5 as stated fails on the boundary: with the rightmost terminator at
    index 2400 = 0.8 x 3000 both call sites keep the whole 3000-character
    window and append the ellipsis, instead of ending at the terminator. *)
Lemma terminator_at_80_percent_not_used :
  (3000 < len period_at_80)%Z
  ∧ period_at_80 !! 2400 = Some dot
  ∧ rfind dot (take 3000 period_at_80) = 2400%Z
  ∧ rfind bang (take 3000 period_at_80) = (-1)%Z
  ∧ rfind qmark (take 3000 period_at_80) = (-1)%Z
  ∧ (5 * 2400 = 4 * Truncate.MAX_MURF_CHARS)%Z
  ∧ Truncate.prepare_tts_text Truncate.MAX_MURF_CHARS period_at_80
    = take 3000 period_at_80 ++ ellipsis
  ∧ Truncate.truncate_llm_text Truncate.MAX_MURF_CHARS period_at_80
    = take 3000 period_at_80 ++ ellipsis
  ∧ Truncate.prepare_tts_text Truncate.MAX_MURF_CHARS period_at_80
    ≠ take 2401 period_at_80
  ∧ Truncate.truncate_llm_text Truncate.MAX_MURF_CHARS period_at_80
    ≠ take 2401 period_at_80.
Proof. vm_compute. repeat split; discriminate. Qed.

(** ** Cutting at a space *)

Section NoSentence.
Local Open Scope Z_scope.
Context (max : Z) (T : pystr).
Context (Hmax : 0 ≤ max) (Hlong : max < len T).
Context (Hnone : ∀ (j : nat) c, 4 * max < 5 * Z.of_nat j → Z.of_nat j < max →
                   T !! j = Some c → ¬ terminator c).

Local Abbreviation W := (take (Z.to_nat max) T).

Lemma sentence_branch_not_taken :
  Truncate.gt_tenths
    (Z.max (Z.max (rfind dot W) (rfind bang W)) (rfind qmark W)) max 8 = false.
Proof.
  pose proof (last_sentence_le max T Hmax Hlong (4 * max / 5)) as Hle.
  unfold Truncate.gt_tenths. apply Z.ltb_ge.
  pose proof (Z.div_mod (4 * max) 5 ltac:(lia)) as Hdiv.
  pose proof (Z.mod_pos_bound (4 * max) 5 ltac:(lia)) as Hmod.
  assert (Z.max (Z.max (rfind dot W) (rfind bang W)) (rfind qmark W)
          ≤ 4 * max / 5); [|lia].
  apply Hle; [lia|]. intros j c' Hj. apply Hnone. lia.
Qed.

Lemma prepare_tts_text_space :
  Truncate.prepare_tts_text max T
  = (if 0 <? rfind space W then slice_to (rfind space W) W else W) ++ ellipsis.
Proof. by rewrite prepare_tts_text_long, sentence_branch_not_taken. Qed.

Lemma truncate_llm_text_space :
  Truncate.truncate_llm_text max T
  = if Truncate.gt_tenths (rfind space W) max 9
    then slice_to (rfind space W) W ++ ellipsis
    else W ++ ellipsis.
Proof. by rewrite truncate_llm_text_long, sentence_branch_not_taken. Qed.

End NoSentence.

(** C4, as the code has it: for a text longer than the budget whose window
    holds no sentence terminator at an index greater than 0.8 x max_chars,
    both call sites append the ellipsis, but they choose the cut
    differently.  [query_llm] cuts at the rightmost space of the window only
    if its index is strictly greater than 0.9 x max_chars and otherwise
    keeps the whole window; [chat_with_history] cuts at the rightmost space
    whenever its index is greater than 0 and keeps the whole window only
    when the window has no space after index 0. *)
Theorem cut_at_space_per_call_site (max : Z) (T : pystr) :
  (0 ≤ max)%Z → (max < len T)%Z →
  (∀ (j : nat) c, (4 * max < 5 * Z.of_nat j)%Z → (Z.of_nat j < max)%Z →
                  T !! j = Some c → ¬ terminator c) →
  (∀ i : nat,
     (Z.of_nat i < max)%Z → T !! i = Some space →
     (∀ j, i < j → (Z.of_nat j < max)%Z → T !! j ≠ Some space) →
     ((9 * max < 10 * Z.of_nat i)%Z →
        Truncate.truncate_llm_text max T = take i T ++ ellipsis)
     ∧ ((10 * Z.of_nat i ≤ 9 * max)%Z →
        Truncate.truncate_llm_text max T = take (Z.to_nat max) T ++ ellipsis)
     ∧ (0 < i → Truncate.prepare_tts_text max T = take i T ++ ellipsis)
     ∧ (i = 0 →
        Truncate.prepare_tts_text max T = take (Z.to_nat max) T ++ ellipsis))
  ∧ ((∀ j : nat, (Z.of_nat j < max)%Z → T !! j ≠ Some space) →
     Truncate.truncate_llm_text max T = take (Z.to_nat max) T ++ ellipsis
     ∧ Truncate.prepare_tts_text max T = take (Z.to_nat max) T ++ ellipsis).
Proof.
  intros Hmax Hlong Hnone.
  rewrite prepare_tts_text_space, truncate_llm_text_space by done.
  unfold Truncate.gt_tenths. split.
  - intros i Hi Hsp Hlast.
    rewrite (rfind_window_eq max T Hmax Hlong space i) by done.
    rewrite slice_window by lia. rewrite Nat2Z.id.
    repeat split; intros H.
    + destruct (Z.ltb_spec (9 * max) (10 * Z.of_nat i)); [done|lia].
    + destruct (Z.ltb_spec (9 * max) (10 * Z.of_nat i)); [lia|done].
    + destruct (Z.ltb_spec 0 (Z.of_nat i)); [done|lia].
    + destruct (Z.ltb_spec 0 (Z.of_nat i)); [lia|done].
  - intros Hnosp.
    assert (rfind space (take (Z.to_nat max) T) ≤ -1)%Z as Hr.
    { apply rfind_window_le; [done..|]. intros j _ Hj. by apply Hnosp. }
    destruct (Z.ltb_spec (9 * max) (10 * rfind space (take (Z.to_nat max) T)));
      [lia|].
    destruct (Z.ltb_spec 0 (rfind space (take (Z.to_nat max) T))); [lia|done].
Qed.

Lemma single_space_text (n m j : nat) (c : N) :
  (replicate n 97%N ++ [space] ++ replicate m 97%N) !! j = Some c →
  (c = space ∧ j = n) ∨ c = 97%N.
Proof.
  intros H. destruct (decide (j < n)) as [Hlt|Hge].
  - rewrite lookup_app_l in H by by rewrite length_replicate.
    apply lookup_replicate_1 in H as [-> _]. by right.
  - rewrite lookup_app_r in H by (rewrite length_replicate; lia).
    rewrite length_replicate in H.
    destruct (j - n) as [|k] eqn:Hk.
    + injection H as <-. left. split; [done|lia].
    + change (replicate m 97%N !! k = Some c) in H.
      apply lookup_replicate_1 in H as [-> _]. by right.
Qed.

Lemma cut_at_space_per_call_site_witness :
  Truncate.truncate_llm_text 3000 space_past_90
  = take 2701 space_past_90 ++ ellipsis
  ∧ Truncate.prepare_tts_text 3000 space_past_90
    = take 2701 space_past_90 ++ ellipsis.
Proof.
  destruct (cut_at_space_per_call_site 3000 space_past_90) as [H _].
  - lia.
  - vm_compute. reflexivity.
  - intros j c _ _ Hc Hterm.
    apply single_space_text in Hc as [[-> _]| ->];
      by destruct Hterm as [? | [? | ?] ].
  - destruct (H 2701) as (Hq & _ & Hc & _).
    + lia.
    + reflexivity.
    + intros j Hj _ Hsp. apply single_space_text in Hsp as [[_ ->]|?]; [lia|done].
    + split; [apply Hq; lia | apply Hc; lia].
Defined.

(** C4 as stated fails at both call sites.  With the only space at index 5,
    far below 0.9 x 3000, [chat_with_history] still cuts at the space and
    returns 8 characters instead of the window and the ellipsis.  With the
    only space at index 2700 = 0.9 x 3000 exactly, [query_llm] does not cut at
    the space. *)
Lemma space_threshold_differs :
  (3000 < len space_early)%Z
  ∧ rfind dot (take 3000 space_early) = (-1)%Z
  ∧ rfind bang (take 3000 space_early) = (-1)%Z
  ∧ rfind qmark (take 3000 space_early) = (-1)%Z
  ∧ rfind space (take 3000 space_early) = 5%Z
  ∧ (10 * 5 < 9 * Truncate.MAX_MURF_CHARS)%Z
  ∧ Truncate.prepare_tts_text Truncate.MAX_MURF_CHARS space_early
    = take 5 space_early ++ ellipsis
  ∧ Truncate.prepare_tts_text Truncate.MAX_MURF_CHARS space_early
    ≠ take 3000 space_early ++ ellipsis
  ∧ Truncate.truncate_llm_text Truncate.MAX_MURF_CHARS space_early
    = take 3000 space_early ++ ellipsis
  ∧ rfind space (take 3000 space_at_90) = 2700%Z
  ∧ (10 * 2700 = 9 * Truncate.MAX_MURF_CHARS)%Z
  ∧ Truncate.truncate_llm_text Truncate.MAX_MURF_CHARS space_at_90
    = take 3000 space_at_90 ++ ellipsis
  ∧ Truncate.truncate_llm_text Truncate.MAX_MURF_CHARS space_at_90
    ≠ take 2700 space_at_90 ++ ellipsis.
Proof. vm_compute. repeat split; discriminate. Qed.

(** ** Truncating twice *)

Lemma prepare_tts_text_short (max : Z) (s : pystr) :
  (len s ≤ max)%Z → Truncate.prepare_tts_text max s = s.
Proof.
  intros H. unfold Truncate.prepare_tts_text.
  destruct (Z.ltb_spec max (len s)); [lia|done].
Qed.

Lemma ellipsis_length : length ellipsis = 3.
Proof. reflexivity. Qed.

Lemma ellipsis_has_no_space (k : nat) : ellipsis !! k ≠ Some space.
Proof. by destruct k as [|[|[|k] ] ]. Qed.

(** A cut at a late space: the second pass returns a text of another
    length. *)
Lemma late_space_cut_changes (max : Z) (T : pystr) :
  (0 ≤ max)%Z → late_space_cut max T →
  Truncate.prepare_tts_text max (Truncate.prepare_tts_text max T)
  ≠ Truncate.prepare_tts_text max T.
Proof.
  intros Hmax (Hlong & Hnone & i & Hi0 & Hi3 & Him & Hsp & Hlast).
  rewrite (prepare_tts_text_space max T Hmax Hlong Hnone).
  rewrite (rfind_window_eq max T Hmax Hlong space i) by done.
  destruct (Z.ltb_spec 0 (Z.of_nat i)); [|lia].
  rewrite slice_window by lia. rewrite Nat2Z.id.
  set (R := take i T ++ ellipsis).
  assert (length (take i T) = i) as Hti
    by (unfold len in Hlong; rewrite length_take_le; lia).
  assert (length R = i + 3) as HR
    by (unfold R; rewrite length_app, Hti, ellipsis_length; lia).
  assert (max < len R)%Z as HlongR by (unfold len; lia).
  intros Heq. apply (f_equal length) in Heq. rewrite HR in Heq. revert Heq.
  rewrite (prepare_tts_text_long max R Hmax HlongR).
  pose proof (window_length max R Hmax HlongR) as HW. unfold len in HW.
  pose proof (window_rfind_lt max R Hmax HlongR dot).
  pose proof (window_rfind_lt max R Hmax HlongR bang).
  pose proof (window_rfind_lt max R Hmax HlongR qmark).
  pose proof (window_rfind_lt max R Hmax HlongR space) as Hsp'.
  pose proof (rfind_bounds dot (take (Z.to_nat max) R)).
  set (W := take (Z.to_nat max) R) in *.
  destruct (Truncate.gt_tenths _ max 8).
  - rewrite slice_to_take by lia. rewrite length_take. lia.
  - destruct (Z.ltb_spec 0 (rfind space W)) as [Hpos|Hpos].
    + pose proof (rfind_lookup space W ltac:(lia)) as Hw.
      unfold W in Hw. rewrite (window_lookup max R) in Hw by (fold W; lia).
      fold W in Hw.
      assert (Z.to_nat (rfind space W) < i) as Hlt.
      { destruct (decide (Z.to_nat (rfind space W) < i)); [done|].
        unfold R in Hw. rewrite lookup_app_r in Hw by lia.
        by apply ellipsis_has_no_space in Hw. }
      rewrite slice_to_take by lia.
      rewrite length_app, length_take, ellipsis_length. lia.
    + rewrite length_app, ellipsis_length. lia.
Qed.

(** Without a cut at a late space the second pass changes nothing. *)
Lemma idempotent_without_late_space_cut (max : Z) (T : pystr) :
  (0 ≤ max)%Z → ¬ late_space_cut max T →
  Truncate.prepare_tts_text max (Truncate.prepare_tts_text max T)
  = Truncate.prepare_tts_text max T.
Proof.
  intros Hmax Hnot.
  destruct (Z.le_gt_cases (len T) max) as [Hshort|Hlong].
  { rewrite (prepare_tts_text_short max T Hshort).
    by apply prepare_tts_text_short. }
  pose proof (window_length max T Hmax Hlong) as HW.
  rewrite (prepare_tts_text_long max T) by done.
  set (W := take (Z.to_nat max) T) in *.
  set (ls := Z.max (Z.max (rfind dot W) (rfind bang W)) (rfind qmark W)).
  destruct (Truncate.gt_tenths ls max 8) eqn:Hls.
  - (* cut after a terminator: the result fits the budget *)
    apply prepare_tts_text_short.
    unfold Truncate.gt_tenths in Hls. apply Z.ltb_lt in Hls.
    pose proof (window_rfind_lt max T Hmax Hlong dot).
    pose proof (window_rfind_lt max T Hmax Hlong bang).
    pose proof (window_rfind_lt max T Hmax Hlong qmark).
    rewrite slice_to_take by lia. unfold len in *.
    rewrite length_take. fold W in H, H0, H1. lia.
  - destruct (Z.ltb_spec 0 (rfind space W)) as [Hsp|Hsp].
    + pose proof (rfind_lookup space W ltac:(lia)) as Hw.
      pose proof (window_lookup_lt max T Hmax Hlong _ _ Hw) as Hlt.
      unfold W in Hw. rewrite (window_lookup max T) in Hw by done.
      destruct (Z.le_gt_cases (rfind space W) (max - 3)) as [Hle|Hgt].
      * (* cut at a space at most at index max - 3 *)
        apply prepare_tts_text_short.
        rewrite slice_to_take by lia. unfold len in *.
        rewrite length_app, length_take, ellipsis_length. lia.
      * (* the excluded situation *)
        exfalso. apply Hnot. split; [done|]. split.
        { intros j c Hj Hjm Hc Hterm.
          assert (Z.of_nat j ≤ rfind c W)%Z as Hge.
          { apply rfind_max. unfold W.
            by rewrite (window_lookup max T) by done. }
          unfold Truncate.gt_tenths in Hls. apply Z.ltb_ge in Hls.
          subst ls. destruct Hterm as [-> | [-> | ->] ]; lia. }
        exists (Z.to_nat (rfind space W)).
        split; [lia|]. split; [lia|]. split; [lia|]. split; [done|].
        intros j Hj Hjm Hjs.
        assert (Z.of_nat j ≤ rfind space W)%Z; [|lia].
        apply rfind_max. unfold W. by rewrite (window_lookup max T) by done.
    + (* the whole window is kept: the second pass sees the same window *)
      assert (max < len (W ++ ellipsis))%Z as Hlong'.
      { unfold len in *. rewrite length_app, ellipsis_length. lia. }
      rewrite (prepare_tts_text_long max (W ++ ellipsis)) by done.
      assert (take (Z.to_nat max) (W ++ ellipsis) = W) as ->.
      { apply take_app_length'. unfold len in HW. lia. }
      fold ls. rewrite Hls.
      destruct (Z.ltb_spec 0 (rfind space W)); [lia|done].
Qed.

(** C6, as the code has it: for every text and every budget
    [max_chars >= 0], truncating the truncated text changes nothing, except
    in one situation, and there it does change the text: the text is longer
    than the budget, its window has no sentence terminator beyond
    0.8 x max_chars, and the rightmost space of the window sits at index
    max_chars - 2 or max_chars - 1 (and not at index 0), so that the cut text
    with its ellipsis is longer than the budget. *)
Theorem truncation_idempotent_unless_late_space_cut (max : Z) (T : pystr) :
  (0 ≤ max)%Z →
  Truncate.prepare_tts_text max (Truncate.prepare_tts_text max T)
  = Truncate.prepare_tts_text max T
  ↔ ¬ late_space_cut max T.
Proof.
  intros Hmax. split.
  - intros Heq Hlate. by apply (late_space_cut_changes max T Hmax Hlate).
  - by apply idempotent_without_late_space_cut.
Qed.

Lemma truncation_idempotent_unless_late_space_cut_witness :
  Truncate.prepare_tts_text 3000
    (Truncate.prepare_tts_text 3000 late_terminator_then_space)
  = Truncate.prepare_tts_text 3000 late_terminator_then_space.
Proof.
  apply (truncation_idempotent_unless_late_space_cut 3000
           late_terminator_then_space); [lia|].
  intros (_ & Hnone & _).
  apply (Hnone 2500 dot); [lia | lia | reflexivity | by left].
Defined.

(** Texts that fit the budget, or are cut at a terminator, are not
    affected by a space at the end of the window. *)
Example truncation_idempotent_samples :
  Truncate.prepare_tts_text 3000
    (Truncate.prepare_tts_text 3000 fits_with_final_space)
  = Truncate.prepare_tts_text 3000 fits_with_final_space
  ∧ ¬ late_space_cut 3000 fits_with_final_space
  ∧ late_space_cut 3000 space_late.
Proof.
  split; [by vm_compute|]. split.
  - intros (Hlong & _). vm_compute in Hlong. discriminate Hlong.
  - split; [by vm_compute|]. split.
    + intros j c _ _ Hc Hterm.
      apply single_space_text in Hc as [ [-> _] | ->];
        by destruct Hterm as [? | [? | ?] ].
    + exists 2999. split; [lia|]. split; [lia|]. split; [lia|].
      split; [reflexivity|].
      intros j Hj _ Hs. apply single_space_text in Hs as [ [_ ->] | ?]; [lia|done].
Qed.

(** C6 as stated fails: the text is cut at the space at index 2999 and the
    ellipsis makes the result 3002 characters long; the second pass cuts it
    after the first dot of the ellipsis, at 3000 characters. *)
Lemma truncation_not_idempotent :
  Truncate.prepare_tts_text Truncate.MAX_MURF_CHARS space_late
  = replicate 2999 97%N ++ ellipsis
  ∧ Truncate.prepare_tts_text Truncate.MAX_MURF_CHARS
      (Truncate.prepare_tts_text Truncate.MAX_MURF_CHARS space_late)
    = replicate 2999 97%N ++ [dot]
  ∧ Truncate.prepare_tts_text Truncate.MAX_MURF_CHARS
      (Truncate.prepare_tts_text Truncate.MAX_MURF_CHARS space_late)
    ≠ Truncate.prepare_tts_text Truncate.MAX_MURF_CHARS space_late.
Proof. vm_compute. repeat split; discriminate. Qed.

(** * Further properties of the code *)

(** ** Shape and length of a truncated text *)

Lemma short_text_is_unchanged (max : Z) (T : pystr) :
  (len T ≤ max)%Z →
  Truncate.truncate_llm_text max T = T ∧ Truncate.prepare_tts_text max T = T.
Proof.
  intros Hshort. split; [|by apply prepare_tts_text_short].
  unfold Truncate.truncate_llm_text.
  destruct (Z.ltb_spec max (len T)); [lia|done].
Qed.

(** X1: The result of either truncation is the text itself when it fits the
    budget, and otherwise a prefix of the text of at most [max] characters,
    followed by the ellipsis or by nothing: no character of the text is
    altered or moved. *)
Theorem truncation_keeps_a_prefix (max : Z) (T : pystr) :
  (0 ≤ max)%Z →
  ((len T ≤ max)%Z →
     Truncate.prepare_tts_text max T = T
     ∧ Truncate.truncate_llm_text max T = T)
  ∧ ((max < len T)%Z →
     (∃ k : nat, (Z.of_nat k ≤ max)%Z
        ∧ (Truncate.prepare_tts_text max T = take k T
           ∨ Truncate.prepare_tts_text max T = take k T ++ ellipsis))
     ∧ (∃ k : nat, (Z.of_nat k ≤ max)%Z
        ∧ (Truncate.truncate_llm_text max T = take k T
           ∨ Truncate.truncate_llm_text max T = take k T ++ ellipsis))).
Proof.
  intros Hmax. split.
  { intros Hshort. split; [by apply prepare_tts_text_short|].
    unfold Truncate.truncate_llm_text.
    destruct (Z.ltb_spec max (len T)); [lia|done]. }
  intros Hlong.
  rewrite prepare_tts_text_long, truncate_llm_text_long by done.
  pose proof (window_rfind_lt max T Hmax Hlong dot).
  pose proof (window_rfind_lt max T Hmax Hlong bang).
  pose proof (window_rfind_lt max T Hmax Hlong qmark).
  pose proof (window_rfind_lt max T Hmax Hlong space).
  set (W := take (Z.to_nat max) T) in *.
  set (ls := Z.max (Z.max (rfind dot W) (rfind bang W)) (rfind qmark W)).
  unfold Truncate.gt_tenths.
  destruct (Z.ltb_spec (8 * max) (10 * ls)).
  - unfold W. rewrite slice_window by (fold W; lia). fold W.
    split; exists (Z.to_nat (ls + 1)); (split; [lia|by left]).
  - split.
    + destruct (Z.ltb_spec 0 (rfind space W)).
      * unfold W. rewrite slice_window by (fold W; lia). fold W.
        exists (Z.to_nat (rfind space W)). split; [lia|by right].
      * exists (Z.to_nat max). split; [lia|by right].
    + destruct (Z.ltb_spec (9 * max) (10 * rfind space W)).
      * unfold W. rewrite slice_window by (fold W; lia). fold W.
        exists (Z.to_nat (rfind space W)). split; [lia|by right].
      * exists (Z.to_nat max). split; [lia|by right].
Qed.

Lemma truncation_keeps_a_prefix_witness :
  Truncate.prepare_tts_text 3000 (py "Hi there!") = py "Hi there!"
  ∧ Truncate.truncate_llm_text 3000 (py "Hi there!") = py "Hi there!".
Proof.
  destruct (truncation_keeps_a_prefix 3000 (py "Hi there!")) as [H _]; [lia|].
  apply H. vm_compute. discriminate.
Defined.

(** X2: Neither truncation returns more than [max + 3] characters: the budget
    and the three characters of the ellipsis. *)
Theorem truncation_length_bound (max : Z) (T : pystr) :
  (0 ≤ max)%Z →
  (len (Truncate.prepare_tts_text max T) ≤ max + 3)%Z
  ∧ (len (Truncate.truncate_llm_text max T) ≤ max + 3)%Z.
Proof.
  intros Hmax.
  assert (∀ k : nat, (Z.of_nat k ≤ max)%Z →
            (len (take k T) ≤ max)%Z
            ∧ (len (take k T ++ ellipsis) ≤ max + 3)%Z) as Hlen.
  { intros k Hk. unfold len.
    rewrite length_app, length_take, ellipsis_length. lia. }
  destruct (Z.le_gt_cases (len T) max) as [Hshort|Hlong].
  - unfold Truncate.truncate_llm_text.
    rewrite prepare_tts_text_short by done.
    destruct (Z.ltb_spec max (len T)); lia.
  - pose proof (window_rfind_lt max T Hmax Hlong dot).
    pose proof (window_rfind_lt max T Hmax Hlong bang).
    pose proof (window_rfind_lt max T Hmax Hlong qmark).
    pose proof (window_rfind_lt max T Hmax Hlong space).
    rewrite prepare_tts_text_long, truncate_llm_text_long by done.
    set (W := take (Z.to_nat max) T) in *.
    set (ls := Z.max (Z.max (rfind dot W) (rfind bang W)) (rfind qmark W)).
    unfold Truncate.gt_tenths.
    destruct (Z.ltb_spec (8 * max) (10 * ls)).
    + unfold W. rewrite slice_window by (fold W; lia).
      destruct (Hlen (Z.to_nat (ls + 1))); lia.
    + split.
      * destruct (Z.ltb_spec 0 (rfind space W)).
        -- unfold W. rewrite slice_window by (fold W; lia). fold W.
           by apply Hlen; lia.
        -- by apply Hlen; lia.
      * destruct (Z.ltb_spec (9 * max) (10 * rfind space W)).
        -- unfold W. rewrite slice_window by (fold W; lia). fold W.
           by apply Hlen; lia.
        -- by apply Hlen; lia.
Qed.

Lemma truncation_length_bound_witness :
  (len (Truncate.prepare_tts_text 3000 space_late) ≤ 3003)%Z
  ∧ (len (Truncate.truncate_llm_text 3000 space_late) ≤ 3003)%Z.
Proof. apply (truncation_length_bound 3000 space_late). lia. Defined.

(** X3: The two call sites return the same text whenever the text fits the
    budget, or the window has a space beyond 0.9 x max, or the window has no
    space after index 0. *)
Theorem call_sites_agree (max : Z) (T : pystr) :
  (0 ≤ max)%Z →
  (len T ≤ max)%Z
  ∨ (∃ i : nat, (Z.of_nat i < max)%Z ∧ T !! i = Some space
                ∧ (9 * max < 10 * Z.of_nat i)%Z)
  ∨ (∀ j : nat, 0 < j → (Z.of_nat j < max)%Z → T !! j ≠ Some space) →
  Truncate.truncate_llm_text max T = Truncate.prepare_tts_text max T.
Proof.
  intros Hmax Hcase.
  destruct (Z.le_gt_cases (len T) max) as [Hshort|Hlong].
  { destruct (short_text_is_unchanged max T Hshort) as [-> ->]. done. }
  rewrite prepare_tts_text_long, truncate_llm_text_long by done.
  destruct (Truncate.gt_tenths _ max 8); [done|].
  unfold Truncate.gt_tenths.
  destruct Hcase as [?|[(i & Hi & Hsp & Hfar)|Hnone]]; [lia| |].
  - pose proof (rfind_max space (take (Z.to_nat max) T) i) as Hge.
    rewrite window_lookup in Hge by done. specialize (Hge Hsp).
    destruct (Z.ltb_spec (9 * max) (10 * rfind space (take (Z.to_nat max) T)));
      [|lia].
    destruct (Z.ltb_spec 0 (rfind space (take (Z.to_nat max) T))); [done|lia].
  - assert (rfind space (take (Z.to_nat max) T) ≤ 0)%Z as Hle.
    { apply rfind_window_le; [done|done|lia|].
      intros j Hj Hjm. apply Hnone; lia. }
    destruct (Z.ltb_spec (9 * max) (10 * rfind space (take (Z.to_nat max) T)));
      [lia|].
    destruct (Z.ltb_spec 0 (rfind space (take (Z.to_nat max) T))); [lia|done].
Qed.

Lemma call_sites_agree_witness :
  Truncate.truncate_llm_text 3000 space_past_90
  = Truncate.prepare_tts_text 3000 space_past_90.
Proof.
  apply (call_sites_agree 3000 space_past_90); [lia|].
  right. left. exists 2701. split; [lia|]. split; [reflexivity|lia].
Defined.

(** ** What the adapters return *)

Lemma lstrip_head (s : pystr) (c : N) (t : pystr) :
  lstrip s = c :: t → isspace c = false.
Proof.
  induction s as [|x s IH]; [done|]. cbn [lstrip].
  destruct (isspace x) eqn:E; [done|]. by intros [= <- _].
Qed.

Lemma lstrip_suffix (s : pystr) : ∃ p, s = p ++ lstrip s.
Proof.
  induction s as [|x s [p IH]]; [by exists []|]. cbn [lstrip].
  destruct (isspace x); [|by exists []].
  exists (x :: p). cbn [app]. by rewrite <- IH.
Qed.

Lemma strip_last (s : pystr) (c : N) :
  last (strip s) = Some c → isspace c = false.
Proof.
  unfold strip. rewrite last_reverse.
  destruct (lstrip (reverse (lstrip s))) as [|x t] eqn:E; [done|].
  intros [= <-]. by eapply lstrip_head.
Qed.

Lemma strip_head (s : pystr) (c : N) :
  head (strip s) = Some c → isspace c = false.
Proof.
  unfold strip. rewrite head_reverse.
  destruct (lstrip_suffix (reverse (lstrip s))) as [p Hp].
  intros Hc. apply last_Some in Hc as [y Hy].
  rewrite Hy, app_assoc in Hp.
  apply (f_equal reverse) in Hp.
  rewrite reverse_involutive, reverse_snoc in Hp.
  by eapply lstrip_head.
Qed.

(** X4: [safe_transcribe_audio] returns either a transcript and no error or an
    error and no transcript.  A transcript is never empty and neither starts
    nor ends with white space; an error text is never empty. *)
Theorem transcriber_returns_clean_text_or_error
    (w : World) (audio_data : list Byte.byte) :
  (∃ t, safe_transcribe_audio w audio_data = (Some t, None)
        ∧ t ≠ []
        ∧ (∀ c, head t = Some c → isspace c = false)
        ∧ (∀ c, last t = Some c → isspace c = false))
  ∨ (∃ e, safe_transcribe_audio w audio_data = (None, Some e) ∧ e ≠ []).
Proof.
  unfold safe_transcribe_audio.
  destruct (aai_transcriber w) as [transcribe|]; [|right; by eexists].
  destruct (transcribe audio_data) as [e|e|[text|]];
    try (right; by eexists).
  destruct (bool_decide _ || _) eqn:E; [right; by eexists|].
  left. exists (strip text).
  apply orb_false_elim in E as [_ E].
  split; [done|]. split; [by intros Hs; rewrite Hs in E|].
  split; [apply strip_head | apply strip_last].
Qed.

Lemma transcriber_returns_clean_text_or_error_witness :
  ∃ t, safe_transcribe_audio all_up [] = (Some t, None)
       ∧ t ≠ []
       ∧ (∀ c, head t = Some c → isspace c = false)
       ∧ (∀ c, last t = Some c → isspace c = false).
Proof.
  destruct (transcriber_returns_clean_text_or_error all_up [])
    as [H|(e & H & _)]; [exact H|].
  vm_compute in H. discriminate H.
Defined.


(** X5: A text made of white space only is an error for the transcriber
    ("No speech detected"), but a successful, empty reply for the language
    model adapter. *)
Theorem blank_text_rejected_by_transcriber_only
    (w : World) (audio_data : list Byte.byte) (prompt raw : pystr)
    (transcribe : list Byte.byte → AaiOutcome)
    (generate_content : pystr → GeminiOutcome) :
  raw ≠ [] → strip raw = [] →
  aai_transcriber w = Some transcribe →
  transcribe audio_data = AaiText (Some raw) →
  gemini_client w = Some generate_content →
  generate_content prompt = GeminiText (Some raw) →
  safe_transcribe_audio w audio_data
  = (None, Some (py "No speech detected in the audio"))
  ∧ safe_generate_llm_response w prompt = (Some [], None).
Proof.
  intros Hne Hblank Ha Ht Hg Hr.
  unfold safe_transcribe_audio, safe_generate_llm_response.
  rewrite Ha, Ht, Hg, Hr, Hblank. cbn [fmap option_fmap option_map].
  rewrite Hblank. destruct raw; [done|].
  rewrite bool_decide_eq_false_2 by done. done.
Qed.

Lemma blank_text_rejected_by_transcriber_only_witness :
  safe_transcribe_audio all_blank []
  = (None, Some (py "No speech detected in the audio"))
  ∧ safe_generate_llm_response all_blank (py "Hello") = (Some [], None).
Proof.
  apply (blank_text_rejected_by_transcriber_only all_blank [] (py "Hello")
           (py "   ") (λ _, AaiText (Some (py "   ")))
           (λ _, GeminiText (Some (py "   "))));
    [discriminate | reflexivity..].
Defined.


(** X6: [generate_fallback_tts] returns exactly the audio reference that
    [safe_generate_tts] returns for the same request, and none whenever
    [safe_generate_tts] reports an error. *)
Theorem fallback_tts_agrees_with_safe_tts (w : World) (message voice style : pystr) :
  generate_fallback_tts w message voice style
  = (safe_generate_tts w message voice style).1
  ∧ (is_Some (safe_generate_tts w message voice style).2 →
     generate_fallback_tts w message voice style = None).
Proof.
  unfold generate_fallback_tts, safe_generate_tts.
  destruct (murf_client w) as [g|]; [|by split].
  destruct (g message voice style); split; try done; by intros [? [=]].
Qed.

Lemma fallback_tts_agrees_with_safe_tts_witness :
  generate_fallback_tts tts_down (py "Hello") (py "en-US-ken") (py "Neutral")
  = None.
Proof.
  destruct (fallback_tts_agrees_with_safe_tts tts_down (py "Hello")
              (py "en-US-ken") (py "Neutral")) as [_ H].
  apply H. vm_compute. by eexists.
Defined.


(** ** Classification of exception texts *)

Lemma startswith_spec (p s : pystr) :
  startswith p s = true ↔ ∃ b, s = p ++ b.
Proof.
  revert s. induction p as [|a p IH]; intros s; cbn [startswith].
  { split; [by exists s|done]. }
  destruct s as [|x s].
  { split; [done|]. by intros [b Hb]. }
  rewrite andb_true_iff, IH, N.eqb_eq. split.
  - intros [-> [b ->]]. by exists b.
  - intros [b [= -> ->]]. split; [done|by exists b].
Qed.

Lemma contains_spec (p s : pystr) :
  contains p s = true ↔ ∃ a b, s = a ++ p ++ b.
Proof.
  induction s as [|x s IH].
  - cbn [contains]. rewrite orb_false_r, startswith_spec. split.
    + intros [b Hb]. by exists [], b.
    + intros (a & b & Hab). destruct a; [by exists b|done].
  - cbn [contains]. rewrite orb_true_iff, startswith_spec, IH. split.
    + intros [[b Hb]|(a & b & ->)]; [by exists [], b|by exists (x :: a), b].
    + intros (a & b & Hab). destruct a as [|y a].
      * left. by exists b.
      * injection Hab as -> ->. right. by exists a, b.
Qed.

Lemma contains_inner (q1 p q2 s : pystr) :
  contains (q1 ++ p ++ q2) s = true → contains p s = true.
Proof.
  rewrite !contains_spec. intros (a & b & ->).
  exists (a ++ q1), (q2 ++ b). by rewrite <- !app_assoc.
Qed.

(** X7: An exception text that mentions [text_to_speech] is classified as
    [stt_error], because it mentions [speech]; so the class is [tts_error]
    exactly when the lowered text has none of the six keywords tested first
    and mentions [murf] or [tts]. *)
Theorem text_to_speech_keyword_is_shadowed (w : World) (exception : pystr) :
  let has k := contains (py k) (str_lower w exception) = true in
  (has "text_to_speech"%string → get_error_type w exception = stt_error)
  ∧ (get_error_type w exception = tts_error ↔
     ¬ (has "assemblyai"%string ∨ has "transcription"%string
        ∨ has "speech"%string)
     ∧ ¬ (has "gemini"%string ∨ has "llm"%string
          ∨ has "generate_content"%string)
     ∧ (has "murf"%string ∨ has "tts"%string)).
Proof.
  intros has. subst has. cbv beta.
  assert (contains (py "text_to_speech") (str_lower w exception) = true →
          contains (py "speech") (str_lower w exception) = true) as Hsub.
  { apply (contains_inner (py "text_to_") (py "speech") []). }
  unfold get_error_type. revert Hsub.
  generalize (contains (py "assemblyai") (str_lower w exception)),
    (contains (py "transcription") (str_lower w exception)),
    (contains (py "speech") (str_lower w exception)),
    (contains (py "gemini") (str_lower w exception)),
    (contains (py "llm") (str_lower w exception)),
    (contains (py "generate_content") (str_lower w exception)),
    (contains (py "murf") (str_lower w exception)),
    (contains (py "tts") (str_lower w exception)),
    (contains (py "text_to_speech") (str_lower w exception)),
    (contains (py "connection") (str_lower w exception)),
    (contains (py "network") (str_lower w exception)),
    (contains (py "timeout") (str_lower w exception)).
  intros b1 b2 b3 b4 b5 b6 b7 b8 b9 b10 b11 b12 Hsub.
  destruct b1, b2, b3; cbn [orb];
    try (split; [tauto || congruence | split; [discriminate | tauto] ]).
  assert (b9 = false) as ->
    by (destruct b9; [discriminate (Hsub eq_refl)|reflexivity]).
  clear Hsub. split; [discriminate|].
  destruct b4, b5, b6; cbn [orb]; try (split; [discriminate | tauto]).
  destruct b7, b8; cbn [orb];
    try (split; [intros _; repeat split; try tauto;
                 intros [H|[H|H] ]; discriminate H
                | reflexivity]).
  split; [destruct (b10 || b11 || b12); discriminate
         | intros (_ & _ & [H|H]); discriminate H].
Qed.

Lemma text_to_speech_keyword_is_shadowed_witness :
  get_error_type all_up (py "murf.TEXT_TO_SPEECH.generate failed") = stt_error.
Proof.
  destruct (text_to_speech_keyword_is_shadowed all_up
              (py "murf.TEXT_TO_SPEECH.generate failed")) as [H _].
  apply H. reflexivity.
Defined.


(** ** The prompt *)

Lemma foldl_append_lines {A} (f : A → pystr) (start : pystr) (l : list A) :
  foldl (λ acc x, acc ++ f x) start l = start ++ concat (f <$> l).
Proof.
  revert start. induction l as [|x l IH]; intros start; cbn.
  - by rewrite app_nil_r.
  - by rewrite IH, <- app_assoc.
Qed.

Lemma build_prompt_eq (recent : list Message) :
  build_prompt recent
  = prompt_header ++ concat (prompt_line <$> recent)
      ++ (if 1 <? length recent then prompt_continuation else []).
Proof.
  unfold build_prompt.
  rewrite (foldl_append_lines prompt_line).
  destruct (1 <? length recent); [|by rewrite app_nil_r].
  unfold prompt_continuation. by rewrite <- !app_assoc.
Qed.

Lemma last_n_snoc {A} (n : nat) (l : list A) (x : A) :
  last_n (S n) (l ++ [x]) = last_n n l ++ [x].
Proof.
  unfold last_n. rewrite length_app. cbn [length].
  replace (length l + 1 - S n) with (length l - n) by lia.
  rewrite drop_app_le by lia. done.
Qed.

Lemma last_n_app_long {A} (n : nat) (older l : list A) :
  n ≤ length l → last_n n (older ++ l) = last_n n l.
Proof.
  intros H. unfold last_n. rewrite length_app.
  rewrite drop_app_ge by lia. f_equal. lia.
Qed.

(** X8: The prompt of a turn is the fixed header, one labelled line for each of
    the last 19 stored messages, in order, then the line of the new user
    message; the sentence asking to continue the conversation follows
    exactly when the session already held a message. *)
Theorem prompt_of_a_turn (w : World) (sessions : Store) (sid u : pystr) :
  let old := SessionStore.get sessions sid in
  prompt_after w sessions sid u
  = prompt_header
      ++ concat (prompt_line <$> last_n 19 old)
      ++ (py "User: " ++ u ++ [newline; newline])
      ++ (match old with
          | [] => []
          | _ :: _ => prompt_continuation
          end).
Proof.
  intros old. unfold prompt_after. fold old.
  change MAX_HISTORY_MESSAGES with 20.
  rewrite last_n_snoc, build_prompt_eq.
  rewrite fmap_app, concat_app, length_app. cbn [fmap list_fmap concat length].
  rewrite app_nil_r, <- !app_assoc.
  do 2 f_equal.
  change (prompt_line (user_entry w u)) with (py "User: " ++ u ++ [newline; newline]).
  rewrite <- !app_assoc. do 3 f_equal.
  unfold last_n. rewrite length_drop.
  destruct old as [|m old']; [done|].
  cbn [length]. destruct (Nat.ltb_spec 1 (S (length old') - (S (length old') - 19) + 1));
    [done|lia].
Qed.

(** X9: Messages older than the last 19 stored ones have no influence on the
    prompt: two stores whose sessions end with the same 19 or more messages
    give the same prompt. *)
Theorem prompt_ignores_old_messages
    (w : World) (s1 s2 : Store) (sid u : pystr) (a b recent : list Message) :
  SessionStore.get s1 sid = a ++ recent →
  SessionStore.get s2 sid = b ++ recent →
  19 ≤ length recent →
  prompt_after w s1 sid u = prompt_after w s2 sid u.
Proof.
  intros H1 H2 Hlen. unfold prompt_after. rewrite H1, H2.
  rewrite <- !app_assoc.
  rewrite (last_n_app_long _ a), (last_n_app_long _ b); [done|..];
    rewrite length_app; cbn [length]; unfold MAX_HISTORY_MESSAGES; lia.
Qed.

Lemma prompt_ignores_old_messages_witness :
  prompt_after all_up (with_history 30) s1 (py "Hello")
  = prompt_after all_up {[ s1 := old_message <$> seq 5 25 ]} s1 (py "Hello").
Proof.
  apply (prompt_ignores_old_messages all_up _ _ s1 (py "Hello")
           (old_message <$> seq 0 10) (old_message <$> seq 5 5)
           (old_message <$> seq 10 20)); [reflexivity|reflexivity|].
  vm_compute. lia.
Defined.

(** ** Every path of a turn *)

Ltac turn_leaf :=
  do 2 eexists; split; [reflexivity|]; split;
    [ unfold turn_step; rewrite <- ?app_assoc; cbn [app];
      first [ by left
            | right; eexists; first
                [ by left
                | right; eexists; first [ by left | by right ] ] ]
    | cbn [ChatResponse.message_count ChatResponse.session_id]; done ].

(** Where a turn can end: the store differs from the old one in the entry
    of the session only, and that entry went through [turn_step]; a response
    counts the entry as stored; the one exception that leaves the endpoint is
    the rejection of a non-audio upload, raised before any message is
    stored. *)
Lemma chat_with_history_paths w sid file sessions :
  ∃ out l,
    chat_with_history w sid file sessions = (out, <[sid := l]> sessions)
    ∧ turn_step w (SessionStore.get sessions sid) l
    ∧ match out with
      | Return r =>
          ChatResponse.message_count r = length l
          ∧ ChatResponse.session_id r = sid
      | Raise e =>
          e = HTTPException 400
                (py "Invalid file type. Only audio files are allowed.")
          ∧ l = SessionStore.get sessions sid
          ∧ valid_content_type file = false
      end.
Proof.
  unfold chat_with_history, chat_body.
  run. destruct (fault w at_entry); run; [turn_leaf|].
  destruct (fault w at_filename); run; [turn_leaf|].
  destruct (valid_content_type file) eqn:Hv; run; [|turn_leaf].
  destruct (fault w at_read); run; [turn_leaf|].
  destruct (safe_transcribe_audio w (audio_bytes file)) as [t te]; run.
  destruct (truthy te); run.
  { destruct (fault w at_stt_fallback); run; turn_leaf. }
  destruct t as [u|]; run; [|turn_leaf].
  destruct (fault w before_user_append); run; [turn_leaf|].
  destruct (fault w building_context); run; [turn_leaf|].
  destruct (safe_generate_llm_response w _) as [g le]; run.
  destruct (truthy le); run.
  - destruct (fault w before_assistant_append); run; [turn_leaf|].
    destruct (fault w before_synthesize); run; [turn_leaf|].
    destruct (safe_generate_tts w _ _ _) as [url tte]; run.
    destruct (fault w after_synthesize); run; [turn_leaf|].
    destruct (fault w finalizing); run; turn_leaf.
  - destruct g as [reply|]; run; [|turn_leaf].
    destruct (fault w before_assistant_append); run; [turn_leaf|].
    destruct (fault w before_synthesize); run; [turn_leaf|].
    destruct (safe_generate_tts w _ _ _) as [url tte]; run.
    destruct (fault w after_synthesize); run; [turn_leaf|].
    destruct (fault w finalizing); run; turn_leaf.
Qed.

Lemma trim_list_length (l : list Message) :
  length (trim_list l) ≤ 2 * MAX_HISTORY_MESSAGES.
Proof.
  destruct (decide (length l ≤ 2 * MAX_HISTORY_MESSAGES)).
  - by rewrite trim_list_short.
  - destruct (trim_list_long l) as [_ ->]; [lia|]. unfold MAX_HISTORY_MESSAGES. lia.
Qed.

(** X10: A turn changes no session but its own, on any path. *)
Theorem turn_leaves_other_sessions
    (w : World) (sid k : pystr) (file : UploadFile) (sessions : Store) :
  k ≠ sid →
  (chat_with_history w sid file sessions).2 !! k = sessions !! k.
Proof.
  intros Hk.
  destruct (chat_with_history_paths w sid file sessions) as (out & l & -> & _).
  cbn [snd]. by rewrite lookup_insert_ne.
Qed.

Lemma turn_leaves_other_sessions_witness :
  (chat_with_history all_up (py "s2") wav (with_history 3)).2 !! s1
  = with_history 3 !! s1.
Proof.
  apply (turn_leaves_other_sessions all_up (py "s2") s1 wav (with_history 3)).
  discriminate.
Defined.

(** X11: With an audio upload the endpoint never raises: it returns a response
    for the session asked for, and the [message_count] of the response is the
    count [get_chat_history] reports on the store the turn leaves, whether
    the turn succeeded, degraded or went through the handler. *)
Theorem turn_answers_with_current_count
    (w : World) (sid : pystr) (file : UploadFile) (sessions : Store) :
  valid_content_type file = true →
  ∃ r final,
    chat_with_history w sid file sessions = (Return r, final)
    ∧ ChatResponse.session_id r = sid
    ∧ ChatResponse.message_count r
      = HistoryResponse.message_count (get_chat_history sid final).1
    ∧ length (HistoryResponse.messages (get_chat_history sid final).1)
      = ChatResponse.message_count r.
Proof.
  intros Hv.
  destruct (chat_with_history_paths w sid file sessions)
    as (out & l & Hrun & _ & Hout).
  destruct out as [r|e]; [|destruct Hout as (_ & _ & Hf); congruence].
  destruct Hout as [Hcount Hsid].
  exists r, (<[sid := l]> sessions). split; [done|]. split; [done|].
  unfold get_chat_history.
  cbn [fst HistoryResponse.message_count HistoryResponse.messages].
  by rewrite get_insert.
Qed.

Lemma turn_answers_with_current_count_witness :
  ∃ r final,
    chat_with_history (faulty building_context (py "boom")) s1 wav
      (with_history 3) = (Return r, final)
    ∧ ChatResponse.session_id r = s1
    ∧ ChatResponse.message_count r
      = HistoryResponse.message_count (get_chat_history s1 final).1
    ∧ length (HistoryResponse.messages (get_chat_history s1 final).1)
      = ChatResponse.message_count r.
Proof.
  apply (turn_answers_with_current_count
           (faulty building_context (py "boom")) s1 wav (with_history 3)).
  reflexivity.
Defined.

(** X12: The only exception that leaves [chat_with_history] is the status-400
    rejection of an upload that is not audio; when it is raised no message
    has been stored in any session. *)
Theorem turn_raises_only_the_rejection
    (w : World) (sid : pystr) (file : UploadFile) (sessions : Store)
    (e : Exn) (final : Store) :
  chat_with_history w sid file sessions = (Raise e, final) →
  e = HTTPException 400 (py "Invalid file type. Only audio files are allowed.")
  ∧ valid_content_type file = false
  ∧ ∀ k, SessionStore.get final k = SessionStore.get sessions k.
Proof.
  intros Hrun.
  destruct (chat_with_history_paths w sid file sessions)
    as (out & l & Hrun' & _ & Hout).
  rewrite Hrun in Hrun'. injection Hrun' as <- ->.
  destruct Hout as (-> & -> & Hv). split; [done|]. split; [done|].
  intros k. destruct (decide (k = sid)) as [->|Hk];
    [apply get_insert | by apply get_insert_ne].
Qed.

Lemma turn_raises_only_the_rejection_witness :
  valid_content_type notes_txt = false
  ∧ ∀ k, SessionStore.get
           (chat_with_history all_up s1 notes_txt (with_history 3)).2 k
         = SessionStore.get (with_history 3) k.
Proof.
  destruct (turn_raises_only_the_rejection all_up s1 notes_txt (with_history 3)
              (HTTPException 400
                 (py "Invalid file type. Only audio files are allowed."))
              (chat_with_history all_up s1 notes_txt (with_history 3)).2)
    as (_ & Hv & Hsame).
  - reflexivity.
  - split; [exact Hv | exact Hsame].
Defined.

(** X13: An upload that is not audio is rejected with status 400 before the
    transcriber is consulted, provided the logging before the check does not
    raise; the session keeps its messages. *)
Theorem non_audio_upload_is_rejected
    (w : World) (sid : pystr) (file : UploadFile) (sessions : Store) :
  valid_content_type file = false →
  fault w at_entry = None →
  fault w at_filename = None →
  chat_with_history w sid file sessions
  = (Raise (HTTPException 400
              (py "Invalid file type. Only audio files are allowed.")),
     <[sid := SessionStore.get sessions sid]> sessions).
Proof.
  intros Hv H1 H2. unfold chat_with_history, chat_body.
  run. rewrite H1. run. rewrite H2. run. rewrite Hv. run. done.
Qed.

Lemma non_audio_upload_is_rejected_witness :
  chat_with_history all_up s1 notes_txt (with_history 3)
  = (Raise (HTTPException 400
              (py "Invalid file type. Only audio files are allowed.")),
     <[s1 := SessionStore.get (with_history 3) s1]> (with_history 3)).
Proof.
  apply (non_audio_upload_is_rejected all_up s1 notes_txt (with_history 3));
    reflexivity.
Defined.




(** X15: When no code outside the adapters raises, a turn on an audio upload
    leaves at most 2N = 40 messages in its session if the session held at
    most 40 before, and in any case once the transcription has succeeded. *)
Theorem quiet_turn_bounds_history
    (w : World) (sid : pystr) (file : UploadFile) (sessions : Store) :
  no_fault w →
  valid_content_type file = true →
  ∃ r final,
    chat_with_history w sid file sessions = (Return r, final)
    ∧ (length (SessionStore.get sessions sid) ≤ 2 * MAX_HISTORY_MESSAGES →
       length (SessionStore.get final sid) ≤ 2 * MAX_HISTORY_MESSAGES)
    ∧ (is_Some (ChatResponse.transcript r) →
       length (SessionStore.get final sid) ≤ 2 * MAX_HISTORY_MESSAGES).
Proof.
  intros Hq Hv.
  destruct (safe_transcribe_audio_cases w (audio_bytes file))
    as [(u & _ & Hu)|(e & Hne & He)].
  2:{ rewrite (turn_stt_failed w sid file sessions Hq Hv None e He Hne).
      do 2 eexists. split; [reflexivity|]. rewrite get_insert.
      split; [done|]. by intros [? [=] ]. }
  destruct (safe_generate_llm_response_cases w (prompt_after w sessions sid u))
    as [(reply & Hr)|(e & Hne & He)].
  - destruct (synthesis_of w false reply) as [url te] eqn:Hs.
    rewrite (turn_llm_ok w sid file sessions Hq Hv u reply url te Hu Hr Hs).
    do 2 eexists. split; [reflexivity|]. rewrite get_insert.
    split; intros _; apply trim_list_length.
  - destruct (synthesis_of w true (FALLBACK_MESSAGES llm_error))
      as [url te] eqn:Hs.
    rewrite (turn_llm_failed w sid file sessions Hq Hv u None e url te
               Hu He Hne Hs).
    do 2 eexists. split; [reflexivity|]. rewrite get_insert.
    split; intros _; apply trim_list_length.
Qed.

Lemma quiet_turn_bounds_history_witness :
  ∃ r final,
    chat_with_history all_up s1 wav (with_history 40) = (Return r, final)
    ∧ (length (SessionStore.get (with_history 40) s1) ≤ 2 * MAX_HISTORY_MESSAGES →
       length (SessionStore.get final s1) ≤ 2 * MAX_HISTORY_MESSAGES)
    ∧ (is_Some (ChatResponse.transcript r) →
       length (SessionStore.get final s1) ≤ 2 * MAX_HISTORY_MESSAGES).
Proof.
  apply (quiet_turn_bounds_history all_up s1 wav (with_history 40));
    [intros p; reflexivity | reflexivity].
Defined.



(** ** The store operations together *)

Lemma append_eq (sessions : Store) (sid : pystr) (m : Message) :
  SessionStore.append sessions sid m
  = <[sid := SessionStore.get sessions sid ++ [m]]> sessions.
Proof.
  unfold SessionStore.append. by rewrite getitem_eq, insert_insert_eq.
Qed.

Lemma trim_eq (sessions : Store) (sid : pystr) :
  SessionStore.trim sessions sid
  = <[sid := trim_list (SessionStore.get sessions sid)]> sessions.
Proof.
  unfold SessionStore.trim, trim_list. rewrite getitem_eq.
  destruct (_ <? _); [|done]. by rewrite getitem_insert, insert_insert_eq.
Qed.

(** X17: Appending messages one after the other to a session, present or not,
    and reading the session gives its former messages followed by the
    appended ones in the order of appending; other sessions are untouched. *)
Theorem appended_messages_are_read_back
    (sessions : Store) (sid : pystr) (ms : list Message) :
  let final := foldl (λ s m, SessionStore.append s sid m) sessions ms in
  SessionStore.get final sid = SessionStore.get sessions sid ++ ms
  ∧ (get_chat_history sid final).1
    = {| HistoryResponse.session_id := sid;
         HistoryResponse.message_count :=
           length (SessionStore.get sessions sid) + length ms;
         HistoryResponse.messages := SessionStore.get sessions sid ++ ms;
         HistoryResponse.max_history := 20 |}
  ∧ ∀ k, k ≠ sid → SessionStore.get final k = SessionStore.get sessions k.
Proof.
  cbv zeta.
  assert (∀ s, SessionStore.get (foldl (λ s m, SessionStore.append s sid m) s ms) sid
               = SessionStore.get s sid ++ ms
             ∧ ∀ k, k ≠ sid →
                 SessionStore.get (foldl (λ s m, SessionStore.append s sid m) s ms) k
                 = SessionStore.get s k) as H.
  { induction ms as [|m ms IH]; intros s; cbn [foldl].
    - by rewrite app_nil_r.
    - destruct (IH (SessionStore.append s sid m)) as [H1 H2]. split.
      + by rewrite H1, append_eq, get_insert, <- app_assoc.
      + intros k Hne. rewrite H2 by done. rewrite append_eq.
        by apply get_insert_ne. }
  destruct (H sessions) as [Hget Hother].
  split; [done|]. split; [|done].
  unfold get_chat_history. cbn [fst]. rewrite Hget, length_app. done.
Qed.

Lemma appended_messages_are_read_back_witness :
  SessionStore.get
    (foldl (λ s m, SessionStore.append s s1 m) ∅ (old_message <$> seq 0 3)) s1
  = SessionStore.get ∅ s1 ++ (old_message <$> seq 0 3).
Proof.
  destruct (appended_messages_are_read_back ∅ s1 (old_message <$> seq 0 3))
    as [H _].
  exact H.
Defined.


(** X18: The trim leaves a session of at most 40 messages, 40 included, as it
    is, and trimming a second time changes nothing. *)
Theorem trim_is_idempotent_and_spares_forty
    (sessions : Store) (sid : pystr) :
  SessionStore.trim (SessionStore.trim sessions sid) sid
  = SessionStore.trim sessions sid
  ∧ (∀ l, sessions !! sid = Some l → length l ≤ 40 →
          SessionStore.trim sessions sid = sessions).
Proof.
  split.
  - rewrite (trim_eq sessions), trim_insert. f_equal.
    apply trim_list_short. apply trim_list_length.
  - intros l Hl Hlen. rewrite trim_eq. unfold SessionStore.get. rewrite Hl.
    cbn [default]. rewrite trim_list_short by done. by apply insert_id.
Qed.

Lemma trim_is_idempotent_and_spares_forty_witness :
  SessionStore.trim (with_history 40) s1 = with_history 40.
Proof.
  destruct (trim_is_idempotent_and_spares_forty (with_history 40) s1) as [_ H].
  apply (H (old_message <$> seq 0 40)); [reflexivity|].
  vm_compute. lia.
Defined.


(** X19: After [clear_chat_history] the history endpoint reports no message for
    the session, and a second clear finds nothing to delete and leaves the
    store as the first one left it. *)
Theorem clear_then_read_or_clear (sid : pystr) (sessions : Store) :
  let cleared := (clear_chat_history sid sessions).2 in
  HistoryResponse.messages (get_chat_history sid cleared).1 = []
  ∧ HistoryResponse.message_count (get_chat_history sid cleared).1 = 0
  ∧ clear_chat_history sid cleared
    = ({| ClearResponse.success := true;
          ClearResponse.message := not_found_message;
          ClearResponse.session_id := sid |},
       cleared).
Proof.
  cbv zeta.
  assert ((clear_chat_history sid sessions).2 !! sid = None) as Hgone.
  { unfold clear_chat_history.
    destruct (sessions !! sid) as [l|] eqn:E.
    - rewrite bool_decide_eq_true_2 by by eexists.
      rewrite getitem_eq. cbn [snd]. apply lookup_delete_eq.
    - by rewrite bool_decide_eq_false_2 by (by intros [? ?]). }
  unfold get_chat_history, SessionStore.get.
  cbn [fst HistoryResponse.messages HistoryResponse.message_count].
  rewrite Hgone. cbn [default length]. split; [done|]. split; [done|].
  unfold clear_chat_history at 1.
  by rewrite Hgone, bool_decide_eq_false_2 by (by intros [? ?]).
Qed.

Lemma stt_error_final_store w sid file sessions e :
  valid_content_type file = true →
  (safe_transcribe_audio w (audio_bytes file)).2 = Some e →
  (chat_with_history w sid file sessions).2
  = <[sid := SessionStore.get sessions sid]> sessions.
Proof.
  intros Hv He.
  destruct (safe_transcribe_audio_cases w (audio_bytes file))
    as [(t & _ & Ht)|(e' & Hne & Ht)]; rewrite Ht in He; [done|].
  unfold chat_with_history, chat_body.
  run. destruct (fault w at_entry); run; [done|].
  destruct (fault w at_filename); run; [done|].
  rewrite Hv. run.
  destruct (fault w at_read); run; [done|].
  rewrite Ht. run. rewrite (truthy_nonempty _ Hne). run.
  destruct (fault w at_stt_fallback); run; done.
Qed.

(** X20: A turn whose transcription fails on a session id unknown to the store
    leaves an entry that [clear_chat_history] then finds: the clear reports
    "Cleared 0 messages" rather than a missing session, and gives back the
    store as it was before the turn. *)
Theorem clear_after_failed_first_turn
    (w : World) (sid : pystr) (file : UploadFile) (sessions : Store) (e : pystr) :
  sessions !! sid = None →
  valid_content_type file = true →
  (safe_transcribe_audio w (audio_bytes file)).2 = Some e →
  clear_chat_history sid (chat_with_history w sid file sessions).2
  = ({| ClearResponse.success := true;
        ClearResponse.message :=
          py "Cleared 0 messages from session " ++ sid;
        ClearResponse.session_id := sid |},
     sessions).
Proof.
  intros Habsent Hv He.
  rewrite (stt_error_final_store w sid file sessions e Hv He).
  unfold SessionStore.get. rewrite Habsent. cbn [default].
  unfold clear_chat_history.
  rewrite lookup_insert_eq, bool_decide_eq_true_2 by by eexists.
  rewrite getitem_insert, delete_insert_eq, delete_id by done.
  done.
Qed.

Lemma clear_after_failed_first_turn_witness :
  clear_chat_history s1 (chat_with_history stt_silent s1 wav ∅).2
  = ({| ClearResponse.success := true;
        ClearResponse.message := py "Cleared 0 messages from session " ++ s1;
        ClearResponse.session_id := s1 |},
     ∅).
Proof.
  apply (clear_after_failed_first_turn stt_silent s1 wav ∅
           (py "No speech detected in the audio")); reflexivity.
Defined.

(** ** Listing sessions and health *)

Lemma session_row_Some (sid : pystr) (l : list Message) (row : SessionInfo.t) :
  session_row (sid, l) = Some row ↔
  l ≠ []
  ∧ row = {| SessionInfo.session_id := sid;
             SessionInfo.message_count := length l;
             SessionInfo.last_message_time := timestamp <$> last l;
             SessionInfo.first_message_time := timestamp <$> head l |}.
Proof.
  unfold session_row. destruct l as [|m l].
  - split; [done|]. by intros [? _].
  - split; [by intros [= <-]|]. by intros [_ ->].
Qed.

(** X21: [list_sessions] shows exactly the sessions that hold at least one
    message, each once, with its count and the time stamps of its first and
    last message; entries holding an empty list are not shown.  It changes
    nothing in the store. *)
Theorem listed_sessions_are_the_non_empty_ones (sessions : Store) :
  let response := (list_sessions sessions).1 in
  (∀ row, row ∈ SessionsResponse.sessions response ↔
          ∃ l, sessions !! SessionInfo.session_id row = Some l
               ∧ l ≠ []
               ∧ SessionInfo.message_count row = length l
               ∧ SessionInfo.first_message_time row = timestamp <$> head l
               ∧ SessionInfo.last_message_time row = timestamp <$> last l)
  ∧ NoDup (SessionInfo.session_id <$> SessionsResponse.sessions response)
  ∧ SessionsResponse.total_sessions response
    = length (SessionsResponse.sessions response)
  ∧ (list_sessions sessions).2 = sessions.
Proof.
  cbv zeta. unfold list_sessions.
  cbn [fst snd SessionsResponse.sessions SessionsResponse.total_sessions].
  split; [|split; [|done] ].
  - intros row. rewrite list_elem_of_omap. split.
    + intros ([sid l] & Hin & Hrow).
      apply elem_of_map_to_list in Hin.
      apply session_row_Some in Hrow as [Hne ->]. by exists l.
    + intros (l & Hl & Hne & Hc & Hf & Hlast).
      exists (SessionInfo.session_id row, l).
      split; [by apply elem_of_map_to_list|].
      apply session_row_Some. split; [done|].
      destruct row. cbn in *. by subst.
  - pose proof (NoDup_fst_map_to_list sessions) as Hnd.
    induction (map_to_list sessions) as [|[sid l] items IH]; [constructor|].
    cbn [fmap list_fmap fst] in Hnd. apply NoDup_cons in Hnd as [Hnotin Hnd].
    cbn [omap list_omap]. destruct (session_row (sid, l)) as [row|] eqn:Hrow;
      [|by apply IH].
    cbn [fmap list_fmap]. apply NoDup_cons. split; [|by apply IH].
    apply session_row_Some in Hrow as [_ ->]. cbn [SessionInfo.session_id].
    intros Hin. apply Hnotin.
    apply list_elem_of_fmap in Hin as (row' & -> & Hin').
    apply list_elem_of_omap in Hin' as ([sid' l'] & Hin'' & Hrow').
    apply session_row_Some in Hrow' as [_ ->]. cbn [SessionInfo.session_id].
    apply list_elem_of_fmap. by exists (sid', l').
Qed.

Lemma listed_sessions_are_the_non_empty_ones_witness :
  SessionsResponse.total_sessions (list_sessions (with_history 3)).1 = 1
  ∧ SessionsResponse.total_sessions
      (list_sessions (<[py "s2" := []]> (with_history 3))).1 = 1.
Proof.
  destruct (listed_sessions_are_the_non_empty_ones (with_history 3))
    as (_ & _ & H1 & _).
  destruct (listed_sessions_are_the_non_empty_ones
              (<[py "s2" := []]> (with_history 3))) as (_ & _ & H2 & _).
  rewrite H1, H2. clear H1 H2. vm_compute. split; reflexivity.
Defined.


Lemma count_messages_insert (sessions : Store) (sid : pystr) (l : list Message) :
  sessions !! sid = None →
  count_messages (<[sid := l]> sessions) = length l + count_messages sessions.
Proof.
  intros H. unfold count_messages.
  rewrite map_fold_insert_L; [done| |done]. intros. lia.
Qed.

Lemma count_messages_split (sessions : Store) (sid : pystr) :
  count_messages sessions
  = length (SessionStore.get sessions sid) + count_messages (delete sid sessions).
Proof.
  unfold SessionStore.get. destruct (sessions !! sid) as [l|] eqn:E.
  - rewrite <- (insert_delete_id sessions sid l E) at 1.
    rewrite count_messages_insert by apply lookup_delete_eq. done.
  - by rewrite delete_id.
Qed.

(** X22: [health_check] counts every entry of the store as an active session,
    empty ones included, so it never counts fewer sessions than
    [list_sessions] lists; clearing a stored session lowers its count of
    sessions by one and its count of messages by the length of the session. *)
Theorem health_counts_entries
    (w : World) (sessions : Store) (sid : pystr) (l : list Message) :
  sessions !! sid = Some l →
  let before := (health_check w sessions).1 in
  let after := (health_check w (clear_chat_history sid sessions).2).1 in
  SessionsResponse.total_sessions (list_sessions sessions).1
    ≤ HealthResponse.active_sessions before
  ∧ HealthResponse.active_sessions before
    = S (HealthResponse.active_sessions after)
  ∧ HealthResponse.total_messages before
    = length l + HealthResponse.total_messages after
  ∧ (health_check w sessions).2 = sessions.
Proof.
  intros Hl. cbv zeta. unfold health_check, list_sessions.
  cbn [fst snd HealthResponse.active_sessions HealthResponse.total_messages
       SessionsResponse.total_sessions].
  assert ((clear_chat_history sid sessions).2 = delete sid sessions) as ->.
  { unfold clear_chat_history. rewrite bool_decide_eq_true_2 by by eexists.
    rewrite getitem_eq. cbn [snd]. by rewrite delete_insert_eq. }
  split; [|split; [|split; [|done] ] ].
  - rewrite <- length_map_to_list.
    induction (map_to_list sessions) as [|item items IH]; [done|].
    cbn [omap list_omap length]. destruct (session_row item); cbn [length]; lia.
  - rewrite map_size_delete_Some by by eexists.
    assert (size sessions ≠ 0); [|lia].
    intros H0. apply map_size_empty_iff in H0. by rewrite H0 in Hl.
  - rewrite (count_messages_split sessions sid).
    unfold SessionStore.get. by rewrite Hl.
Qed.

Lemma health_counts_entries_witness :
  HealthResponse.active_sessions (health_check all_up (with_history 3)).1
  = S (HealthResponse.active_sessions
         (health_check all_up (clear_chat_history s1 (with_history 3)).2).1)
  ∧ HealthResponse.total_messages (health_check all_up (with_history 3)).1
    = 3 + HealthResponse.total_messages
            (health_check all_up (clear_chat_history s1 (with_history 3)).2).1.
Proof.
  destruct (health_counts_entries all_up (with_history 3) s1
              (old_message <$> seq 0 3)) as (_ & H1 & H2 & _);
    [reflexivity|].
  split; [exact H1 | exact H2].
Defined.

(** X23: A turn whose transcription fails on a session id unknown to the store
    makes [health_check] count one more active session, with the same total
    of messages, while [list_sessions] lists as many sessions as before. *)
Theorem failed_first_turn_is_active_but_not_listed
    (w : World) (sid : pystr) (file : UploadFile) (sessions : Store) (e : pystr) :
  sessions !! sid = None →
  valid_content_type file = true →
  (safe_transcribe_audio w (audio_bytes file)).2 = Some e →
  let final := (chat_with_history w sid file sessions).2 in
  HealthResponse.active_sessions (health_check w final).1
  = S (HealthResponse.active_sessions (health_check w sessions).1)
  ∧ HealthResponse.total_messages (health_check w final).1
    = HealthResponse.total_messages (health_check w sessions).1
  ∧ SessionsResponse.total_sessions (list_sessions final).1
    = SessionsResponse.total_sessions (list_sessions sessions).1
  ∧ (∀ row, row ∈ SessionsResponse.sessions (list_sessions final).1 →
            SessionInfo.session_id row ≠ sid).
Proof.
  intros Habsent Hv He. cbv zeta.
  rewrite (stt_error_final_store w sid file sessions e Hv He).
  unfold SessionStore.get. rewrite Habsent. cbn [default].
  unfold health_check, list_sessions.
  cbn [fst HealthResponse.active_sessions HealthResponse.total_messages
       SessionsResponse.total_sessions SessionsResponse.sessions].
  split; [by apply map_size_insert_None|].
  split; [by rewrite count_messages_insert|].
  assert (omap session_row (map_to_list (<[sid := []]> sessions))
          ≡ₚ omap session_row (map_to_list sessions)) as Hperm.
  { rewrite map_to_list_insert by done. done. }
  split; [by rewrite Hperm|].
  intros row Hin. rewrite Hperm in Hin.
  apply list_elem_of_omap in Hin as ([sid' l'] & Hin & Hrow).
  apply elem_of_map_to_list in Hin.
  apply session_row_Some in Hrow as [_ ->]. cbn [SessionInfo.session_id].
  intros ->. congruence.
Qed.

Lemma failed_first_turn_is_active_but_not_listed_witness :
  HealthResponse.active_sessions
    (health_check stt_silent (chat_with_history stt_silent (py "s2") wav
                                (with_history 3)).2).1
  = S (HealthResponse.active_sessions (health_check stt_silent (with_history 3)).1)
  ∧ SessionsResponse.total_sessions
      (list_sessions (chat_with_history stt_silent (py "s2") wav
                        (with_history 3)).2).1
    = SessionsResponse.total_sessions (list_sessions (with_history 3)).1.
Proof.
  destruct (failed_first_turn_is_active_but_not_listed stt_silent (py "s2") wav
              (with_history 3) (py "No speech detected in the audio"))
    as (H1 & _ & H2 & _); [reflexivity..|].
  split; [exact H1 | exact H2].
Defined.

(** ** Uploading a recording *)

Lemma split_last_spec (c : N) (s : pystr) :
  contains [c] s = true →
  ∃ stem, s = stem ++ [c] ++ split_last c s ∧ c ∉ split_last c s.
Proof.
  intros Hc. apply contains_spec in Hc as (a & b & Hs).
  assert (s !! length a = Some c) as Ha.
  { rewrite Hs. change (a ++ [c] ++ b) with (a ++ c :: b).
    by apply list_lookup_middle. }
  pose proof (rfind_max c s _ Ha) as Hge.
  pose proof (rfind_lookup c s ltac:(lia)) as Hr.
  unfold split_last.
  replace (Z.to_nat (rfind c s + 1)) with (S (Z.to_nat (rfind c s))) by lia.
  exists (take (Z.to_nat (rfind c s)) s). split.
  - symmetry. by apply take_drop_middle.
  - intros Hin. apply list_elem_of_lookup in Hin as [j Hj].
    rewrite lookup_drop in Hj. apply rfind_max in Hj. lia.
Qed.

(** X24: Every failure of [upload_audio] leaves the endpoint as an
    [HTTPException] of status 500 whose detail starts with "Failed to upload
    audio file: "; this includes the rejection of an upload that is not
    audio, which the body raises with status 400. *)
Theorem upload_failures_all_have_status_500 (h : Host) (file : UploadFile) :
  (∀ e, upload_audio h file = Raise e →
        ∃ text, e = HTTPException 500
                      (py "Failed to upload audio file: " ++ text))
  ∧ (valid_content_type file = false →
     upload_audio h file
     = Raise (HTTPException 500
                (py "Failed to upload audio file: "
                   ++ str_http h 400
                        (py "Invalid file type. Only audio files are allowed.")))).
Proof.
  split.
  - intros e. unfold upload_audio.
    destruct (upload_body h file) as [r|e']; [done|].
    intros [= <-]. by eexists.
  - intros Hv. unfold upload_audio, upload_body. by rewrite Hv.
Qed.

Lemma upload_failures_all_have_status_500_witness :
  upload_audio good_host notes_txt
  = Raise (HTTPException 500
             (py "Failed to upload audio file: 400: Invalid file type. Only audio files are allowed.")).
Proof.
  destruct (upload_failures_all_have_status_500 good_host notes_txt) as [_ H].
  rewrite H by reflexivity. reflexivity.
Defined.

(** X25: A successful upload is stored under "recording_<time stamp>.<ext>",
    where <ext> is what follows the last dot of the uploaded file's name
    (it may be empty and holds no dot) and "wav" when the name has no dot;
    the response repeats the content type of the upload, which is audio. *)
Theorem uploaded_file_name
    (h : Host) (file : UploadFile) (r : AudioUploadResponse.t) :
  upload_audio h file = Return r →
  ∃ name ext,
    filename file = Some name
    ∧ AudioUploadResponse.filename r
      = py "recording_" ++ strftime_now h ++ py "." ++ ext
    ∧ (dot ∉ ext)
    ∧ (dot ∉ name → ext = py "wav")
    ∧ (dot ∈ name → ∃ stem, name = stem ++ [dot] ++ ext)
    ∧ valid_content_type file = true
    ∧ content_type file = Some (AudioUploadResponse.content_type r)
    ∧ AudioUploadResponse.success r = true.
Proof.
  unfold upload_audio, upload_body.
  destruct (valid_content_type file) eqn:Hv; cbn [negb]; [|done].
  destruct (makedirs h); [done|].
  destruct (filename file) as [name|]; [|done].
  destruct (write_file h _ _) as [|size] eqn:Hw; [done|].
  destruct (upload_log h); [done|].
  intros [= <-]. cbn [AudioUploadResponse.filename
    AudioUploadResponse.content_type AudioUploadResponse.success].
  exists name. eexists. split; [done|]. split; [reflexivity|].
  assert (content_type file = Some (default [] (content_type file))) as Hct.
  { unfold valid_content_type in Hv. by destruct (content_type file). }
  destruct (contains [dot] name) eqn:Hdot.
  - destruct (split_last_spec dot name Hdot) as (stem & Hname & Hnotin).
    split; [done|]. split.
    { intros Hno. exfalso. apply Hno. rewrite Hname. set_solver. }
    split; [intros _; by exists stem|]. done.
  - assert (dot ∉ name) as Hno.
    { intros Hin. apply list_elem_of_split in Hin as (a & b & ->).
      assert (contains [dot] (a ++ dot :: b) = true) as Hc
        by (apply contains_spec; by exists a, b).
      congruence. }
    split; [apply (bool_decide_unpack _); by vm_compute|].
    split; [done|]. split; [done|]. done.
Qed.

Lemma uploaded_file_name_witness :
  ∃ name ext,
    filename voice_memo = Some name
    ∧ py "recording_20250810_120000.webm"
      = py "recording_" ++ strftime_now good_host ++ py "." ++ ext
    ∧ (dot ∉ ext).
Proof.
  destruct (uploaded_file_name good_host voice_memo
              {| AudioUploadResponse.success := true;
                 AudioUploadResponse.message :=
                   py "Audio file uploaded successfully!";
                 AudioUploadResponse.filename :=
                   py "recording_20250810_120000.webm";
                 AudioUploadResponse.content_type := py "audio/webm";
                 AudioUploadResponse.size := 0 |})
    as (name & ext & Hn & Hf & Hd & _); [reflexivity|].
  exists name, ext. split; [exact Hn|]. split; [exact Hf|exact Hd].
Defined.
